(** * hn-comment-parser: a shallow embedding of [main.go]

    The program downloads the direct children of one Hacker News thread,
    caches them as JSON under [~/.cache/hn-article-parser], filters them by
    keyword and writes the survivors as JSON to a file or to standard output.

    The embedding follows the latest revision of [main.go] (the one with
    [getComments], [fileExists] and [getCachedFile]).  Strings are byte
    strings, as in Go.  Item identifiers are [float64] in the source only
    because that is how [encoding/json] decodes numbers; they carry integral
    values and no arithmetic is done on them, so they are integers here. *)

From Stdlib Require Import ZArith Ascii String List Bool Lia Permutation.
From Stdlib Require Import Numbers.DecimalString Numbers.DecimalZ.
From stdpp Require Import base option list gmap strings.


Local Open Scope Z_scope.

(** ** Data model *)

Record hnThread := mkThread { Kids : list Z }.

Record hnComment := mkComment {
  By : string;
  ID : Z;
  Parent : Z;
  Text : string
}.

Definition filterFunction := string -> bool.

(** Result of a fallible library call: a value or the text of the error. *)
Inductive result (A : Type) :=
| Ok (a : A)
| Err (e : string).
Arguments Ok {A} a.
Arguments Err {A} e.

(** ** The outside world

    Everything the program obtains from libraries whose behaviour depends on
    the environment or is too large to restate: the network, the JSON codec,
    the HTML entity table, Unicode case mapping and the current user. *)

Record World := mkWorld {
  (** [user.Current()], reduced to the home directory it reports *)
  user_Current : result string;
  (** [http.Get] followed by [ioutil.ReadAll]: URL to response body *)
  http_Get : string -> result string;
  (** [json.Unmarshal] into a [hnThread] and into a [hnComment] *)
  json_Unmarshal_hnThread : string -> result hnThread;
  json_Unmarshal_hnComment : string -> result hnComment;
  (** [html.UnescapeString] *)
  html_UnescapeString : string -> string;
  (** [strings.Map(unicode.ToLower, s)], the slow path of [strings.ToLower] *)
  unicode_ToLower : string -> string;
  (** [json.Encoder.Encode] of a comment slice: the bytes it would write *)
  json_Encode : list hnComment -> result string;
  (** [json.Decoder.Decode] into a comment slice, from the bytes of a stream *)
  json_Decode : string -> result (list hnComment)
}.

(** ** [strings] *)

Definition byte_lt (n : N) (c : ascii) : bool := (N_of_ascii c <? n)%N.

(** [c >= utf8.RuneSelf] fails for every byte of the string. *)
Fixpoint isASCII (s : string) : bool :=
  match s with
  | EmptyString => true
  | String c s' => byte_lt 128 c && isASCII s'
  end.

(** ['A' <= c && c <= 'Z'] then [c += 'a' - 'A'] *)
Definition lower_byte (c : ascii) : ascii :=
  let n := N_of_ascii c in
  if ((65 <=? n) && (n <=? 90))%N then ascii_of_N (n + 32) else c.

Fixpoint map_bytes (f : ascii -> ascii) (s : string) : string :=
  match s with
  | EmptyString => EmptyString
  | String c s' => String (f c) (map_bytes f s')
  end.

(** [strings.ToLower]: byte-wise on ASCII-only strings, Unicode otherwise. *)
Definition strings_ToLower (w : World) (s : string) : string :=
  if isASCII s then map_bytes lower_byte s else unicode_ToLower w s.

Fixpoint strings_HasPrefix (s prefix : string) {struct prefix} : bool :=
  match prefix, s with
  | EmptyString, _ => true
  | String _ _, EmptyString => false
  | String a p', String b s' => Ascii.eqb a b && strings_HasPrefix s' p'
  end.

(** [strings.Contains]: [substr] starts at some offset of [s]. *)
Fixpoint strings_Contains (s substr : string) : bool :=
  strings_HasPrefix s substr ||
  match s with
  | EmptyString => false
  | String _ s' => strings_Contains s' substr
  end.

(** [strings.Split(s, sep)] for a one-byte separator. *)
Fixpoint strings_Split (s : string) (sep : ascii) : list string :=
  match s with
  | EmptyString => [EmptyString]
  | String c s' =>
      if Ascii.eqb c sep then EmptyString :: strings_Split s' sep
      else match strings_Split s' sep with
           | h :: t => String c h :: t
           | [] => [String c EmptyString]
           end
  end.

(** [strconv.Itoa] and the ["%d"] verb. *)
Definition strconv_Itoa (n : Z) : string :=
  NilEmpty.string_of_int (Z.to_int n).

(** ** The text filter *)

(** The loop of the closure returned by [filterTextFromKeywords]. *)
Fixpoint anyKeyword (lowerText : string) (keywords : list string) : bool :=
  match keywords with
  | [] => false
  | keyword :: rest =>
      if strings_Contains lowerText keyword then true
      else anyKeyword lowerText rest
  end.

Definition filterTextFromKeywords (w : World) (keywords : list string)
  : filterFunction :=
  fun text =>
    let lowerText := strings_ToLower w text in
    anyKeyword lowerText keywords.

(** The filter chosen in [main] from the [-keywords] flag. *)
Definition mainFilter (w : World) (keywordsStr : string) : filterFunction :=
  if (String.length keywordsStr =? 0)%nat then fun _ => true
  else filterTextFromKeywords w (strings_Split keywordsStr " "%char).

(** The loop of [main] that builds [filteredComments], oldest first. *)
Definition filterComments (filter : filterFunction) (comments : list hnComment)
  : list hnComment :=
  fold_left
    (fun filteredComments c =>
       if filter (Text c) then filteredComments ++ [c] else filteredComments)
    comments [].

(** ** The process: file system, output streams and fatal exits *)

Record State := mkState {
  files : gmap string string;   (** regular files: path to contents *)
  dirs : gset string;           (** directories *)
  stdout : string;              (** bytes written to standard output *)
  logs : list string            (** lines written by package [log] *)
}.

(** A computation either hands back a value or ends the process
    ([os.Exit]); the state it leaves behind is observable either way. *)
Inductive outcome (A : Type) :=
| Ret (a : A)
| Exit (code : Z).
Arguments Ret {A} a.
Arguments Exit {A} code.

Definition Proc (A : Type) : Type := State -> State * outcome A.

Definition ret {A} (a : A) : Proc A := fun s => (s, Ret a).

Definition bind {A B} (m : Proc A) (k : A -> Proc B) : Proc B :=
  fun s =>
    match m s with
    | (s', Ret a) => k a s'
    | (s', Exit code) => (s', Exit code)
    end.

#[global] Instance Proc_ret : MRet Proc := @ret.
#[global] Instance Proc_bind : MBind Proc := fun A B k m => bind m k.

Definition get_state : Proc State := fun s => (s, Ret s).

(** The state after one more line on the log. *)
Definition logged (msg : string) (s : State) : State :=
  mkState (files s) (dirs s) (stdout s) (logs s ++ [msg]).

Definition log_Println (msg : string) : Proc unit :=
  fun s => (logged msg s, Ret tt).

(** [log.Fatalln]: print, then [os.Exit(1)]. *)
Definition log_Fatalln {A} (msg : string) : Proc A :=
  fun s => (logged msg s, Exit 1).

(** [x, err := f(); fatalnWrapper(err)] *)
Definition fatalnWrapper {A} (r : result A) : Proc A :=
  match r with
  | Ok a => ret a
  | Err e => log_Fatalln e
  end.

(** An open [*os.File]. *)
Inductive os_File :=
| os_Stdout
| os_Named (name : string).

(** [os.Stat] succeeds on regular files and on directories.  In this file
    system it fails for one reason only, that nothing has the name. *)
Definition os_Stat (s : State) (name : string) : bool :=
  bool_decide (is_Some (files s !! name)) || bool_decide (name ∈ dirs s).

(** [os.Create]: the file is created, or truncated when it exists already.
    The directories above the file are taken to be there. *)
Definition os_Create (name : string) : Proc (result os_File) :=
  fun s =>
    if bool_decide (name ∈ dirs s) then (s, Ret (Err "is a directory"))
    else (mkState (<[name := ""]> (files s)) (dirs s) (stdout s) (logs s),
          Ret (Ok (os_Named name))).

(** [os.Open]: read-only, contents untouched. *)
Definition os_Open (name : string) : Proc (result os_File) :=
  fun s =>
    if bool_decide (is_Some (files s !! name)) || bool_decide (name ∈ dirs s)
    then (s, Ret (Ok (os_Named name)))
    else (s, Ret (Err "no such file or directory")).

Definition os_MkdirAll (name : string) : Proc (result unit) :=
  fun s =>
    if bool_decide (is_Some (files s !! name))
    then (s, Ret (Err "not a directory"))
    else (mkState (files s) ({[name]} ∪ dirs s) (stdout s) (logs s),
          Ret (Ok tt)).

(** What a reader positioned at the start of the file sees. *)
Definition file_contents (s : State) (f : os_File) : string :=
  match f with
  | os_Stdout => ""
  | os_Named name => default "" (files s !! name)
  end.

(** A write through a handle whose offset is at the end of the file. *)
Definition file_Write (f : os_File) (data : string) : Proc unit :=
  fun s =>
    match f with
    | os_Stdout =>
        (mkState (files s) (dirs s) (stdout s +:+ data) (logs s), Ret tt)
    | os_Named name =>
        (mkState (<[name := file_contents s f +:+ data]> (files s))
                 (dirs s) (stdout s) (logs s), Ret tt)
    end.

(** [json.NewEncoder(f).Encode(v)]: the value is marshalled in full before
    the first byte is written, so a failure writes nothing. *)
Definition json_NewEncoder_Encode (w : World) (f : os_File)
    (v : list hnComment) : Proc (result unit) :=
  match json_Encode w v with
  | Ok bytes => file_Write f bytes ;; ret (Ok tt)
  | Err e => ret (Err e)
  end.

(** ** Remote item source *)

Definition urlToFormat (id : Z) : string :=
  "https://hacker-news.firebaseio.com/v0/item/" +:+ strconv_Itoa id +:+ ".json".

(** One worker goroutine.  [Err e] stands for the run that reaches
    [log.Fatalln]; [Ok c] for the run that sends [c] on the channel. *)
Definition getComment (w : World) (url : string) : result hnComment :=
  match http_Get w url with
  | Err e => Err e
  | Ok bytes =>
      match json_Unmarshal_hnComment w bytes with
      | Err e => Err e
      | Ok hnComm =>
          let unescapedText := html_UnescapeString w (Text hnComm) in
          Ok (mkComment (By hnComm) (ID hnComm) (Parent hnComm) unescapedText)
      end
  end.

Definition getThreadFromAPI (w : World) (url : string) : Proc hnThread :=
  bytes ← fatalnWrapper (http_Get w url);
  fatalnWrapper (json_Unmarshal_hnThread w bytes).

(** The scheduler decides which of the goroutines blocked on the unbuffered
    channel gets through next: entry [k] selects sender [k mod n] of the [n]
    still pending. *)
Definition pick {A} (k : nat) (l : list A) : option (A * list A) :=
  let i := (k mod length l)%nat in
  match l !! i with
  | Some x => Some (x, delete i l)
  | None => None
  end.

(** The receive loop of [fetchFromAPI].  A worker that dies takes the whole
    process with it; with nobody left to send the runtime reports a deadlock
    and exits with status 2. *)
Fixpoint recvLoop (n : nat) (sched : list nat)
    (senders : list (result hnComment)) (comments : list hnComment)
  : Proc (list hnComment) :=
  match n with
  | O => ret comments
  | S n' =>
      match pick (hd 0%nat sched) senders with
      | None => fun s => (s, Exit 2)
      | Some (Ok c, rest) => recvLoop n' (tl sched) rest (comments ++ [c])
      | Some (Err e, _) => log_Fatalln e
      end
  end.

Definition fetchFromAPI (w : World) (sched : list nat) (threadID : Z)
  : Proc (list hnComment) :=
  let threadURL := urlToFormat threadID in
  thread ← getThreadFromAPI w threadURL;
  let senders := map (fun id => getComment w (urlToFormat id)) (Kids thread) in
  recvLoop (length (Kids thread)) sched senders [].

(** ** Cache store *)

Definition fetchFromFile (w : World) (file : os_File)
  : Proc (result (list hnComment)) :=
  s ← get_state;
  ret (json_Decode w (file_contents s file)).

(** The source ends the process, through [fatalnWrapper], when [os.Stat]
    fails for another reason than absence; see [os_Stat]. *)
Definition fileExists (filename : string) : Proc bool :=
  s ← get_state;
  ret (os_Stat s filename).

(** Defined in the source, called from nowhere.  As in [fileExists], the
    [log.Fatalln] for a failure of [os.Stat] other than absence has no
    counterpart here. *)
Definition getCachedFile (fileName : string) : Proc (result os_File) :=
  s ← get_state;
  if os_Stat s fileName then os_Open fileName
  else ret (Err "no such file or directory").

Definition defaultDir (usr : string) : string :=
  usr +:+ "/" +:+ ".cache/hn-article-parser".

Definition cachedFileName (usr : string) (threadID : Z) : string :=
  defaultDir usr +:+ "/" +:+ strconv_Itoa threadID +:+ ".json".

(** The deferred [cachedFile.Close()] is bound while [cachedFile] is still
    nil and closes nothing. *)
Definition getComments (w : World) (sched : list nat) (threadID : Z)
  : Proc (list hnComment) :=
  usr ← fatalnWrapper (user_Current w);
  cached ← fileExists (cachedFileName usr threadID);
  if cached : bool then
    log_Println ("Reading cached comments from " +:+ cachedFileName usr threadID) ;;
    r ← os_Create (cachedFileName usr threadID);
    cachedFile ← fatalnWrapper r;
    r ← fetchFromFile w cachedFile;
    fatalnWrapper r
  else
    log_Println ("Cachefile " +:+ cachedFileName usr threadID
                 +:+ " not found, attempting to fetch threadID: "
                 +:+ strconv_Itoa threadID) ;;
    haveDir ← fileExists (defaultDir usr);
    (if haveDir : bool then ret tt
     else r ← os_MkdirAll (defaultDir usr); fatalnWrapper r) ;;
    r ← os_Create (cachedFileName usr threadID);
    cachedFile ← fatalnWrapper r;
    comments ← fetchFromAPI w sched threadID;
    r ← json_NewEncoder_Encode w cachedFile comments;
    fatalnWrapper r ;;
    ret comments.

(** ** [main] *)

(** [main] up to and including the filter loop: the open destination and
    [filteredComments].  The flags arrive parsed; [flag.Parse], which ends
    the process with status 2 on a malformed command line, comes before. *)
Definition main_filter (w : World) (sched : list nat)
    (threadID : Z) (outFileName keywordsStr : string)
  : Proc (os_File * list hnComment) :=
  comments ← getComments w sched threadID;
  outFile ←
    (if String.eqb outFileName "" then
       log_Println "No outfile specified, defaulting to stdout" ;;
       ret os_Stdout
     else
       r ← os_Create outFileName; fatalnWrapper r);
  let filter := mainFilter w keywordsStr in
  ret (outFile, filterComments filter comments).

(** The rest of [main]: write the JSON, or say that there is none. *)
Definition main_write (w : World) (outFile : os_File)
    (filteredComments : list hnComment) : Proc unit :=
  if (0 <? length filteredComments)%nat then
    r ← json_NewEncoder_Encode w outFile filteredComments;
    fatalnWrapper r
  else
    log_Println
      "No results found based on the keywords supplied. Not writing outFile".

Definition main (w : World) (sched : list nat)
    (threadID : Z) (outFileName keywordsStr : string) : Proc unit :=
  p ← main_filter w sched threadID outFileName keywordsStr;
  main_write w (fst p) (snd p).

(** ** Concrete worlds used to exercise the model *)

Fixpoint assoc {A} (table : list (string * A)) (key : string) : option A :=
  match table with
  | [] => None
  | (k, v) :: rest => if String.eqb k key then Some v else assoc rest key
  end.

Definition lookup_or_err {A} (table : list (string * A)) (e : string)
    (key : string) : result A :=
  match assoc table key with
  | Some v => Ok v
  | None => Err e
  end.

(** A line-oriented stand-in for the JSON codec: enough to have bytes to
    write and to read back. *)
Definition toy_encode_comment (c : hnComment) : string :=
  "{by:" +:+ By c +:+ ",id:" +:+ strconv_Itoa (ID c) +:+ ",parent:"
  +:+ strconv_Itoa (Parent c) +:+ ",text:" +:+ Text c +:+ "}".

Definition toy_encode (cs : list hnComment) : string :=
  "[" +:+ String.concat "," (map toy_encode_comment cs) +:+ "]".

(** Decodes the encodings of the lists it is told about; an empty stream is
    [io.EOF], as with [json.Decoder]. *)
Definition toy_decode (known : list (list hnComment)) (bytes : string)
  : result (list hnComment) :=
  if String.eqb bytes "" then Err "EOF"
  else lookup_or_err (map (fun cs => (toy_encode cs, cs)) known)
         "invalid character" bytes.

Definition toy_unescape (s : string) : string :=
  if String.eqb s "I &amp; you" then "I & you" else s.

Definition toy_world (pages : list (string * string))
    (threads : list (string * hnThread)) (items : list (string * hnComment))
    (known : list (list hnComment)) : World :=
  {| user_Current := Ok "/home/hn";
     http_Get := lookup_or_err pages "dial tcp: connection refused";
     json_Unmarshal_hnThread := lookup_or_err threads "unexpected end of JSON input";
     json_Unmarshal_hnComment := lookup_or_err items "unexpected end of JSON input";
     html_UnescapeString := toy_unescape;
     unicode_ToLower := fun s => s;
     json_Encode := fun cs => Ok (toy_encode cs);
     json_Decode := toy_decode known |}.

Definition c1001_wire : hnComment := mkComment "alice" 1001 9996333 "I &amp; you".
Definition c1002_wire : hnComment := mkComment "bob" 1002 9996333 "hello world".
Definition c1001 : hnComment := mkComment "alice" 1001 9996333 "I & you".
Definition c2001 : hnComment := mkComment "carol" 2001 424242 "hello world".

(** Thread 9996333 with children 1001 and 1002, both reachable. *)
Definition world_9996333 : World :=
  toy_world
    [(urlToFormat 9996333, "thread 9996333");
     (urlToFormat 1001, "item 1001"); (urlToFormat 1002, "item 1002")]
    [("thread 9996333", mkThread [1001; 1002])]
    [("item 1001", c1001_wire); ("item 1002", c1002_wire)]
    [[c1001; c1002_wire]; [c1002_wire; c1001]].

(** The same thread when the request for item 1002 fails. *)
Definition world_1002_down : World :=
  toy_world
    [(urlToFormat 9996333, "thread 9996333"); (urlToFormat 1001, "item 1001")]
    [("thread 9996333", mkThread [1001; 1002])]
    [("item 1001", c1001_wire)]
    [].

(** Thread 424242 with the single child 2001. *)
Definition world_424242 : World :=
  toy_world
    [(urlToFormat 424242, "thread 424242"); (urlToFormat 2001, "item 2001")]
    [("thread 424242", mkThread [2001])]
    [("item 2001", c2001)]
    [[c2001]].

Definition empty_state : State := mkState ∅ ∅ "" [].

(** A machine on which thread 9996333 has been cached by an earlier run. *)
Definition cached_state : State :=
  mkState {[ cachedFileName "/home/hn" 9996333 := toy_encode [c1001; c1002_wire] ]}
          {[ defaultDir "/home/hn" ]} "" [].

(** A machine that already holds a file at the path given to [-outFile]. *)
Definition state_with_out : State :=
  mkState {[ "out.json" := "previous results" ]} ∅ "" [].

(** ** Frame conditions *)

(** A computation that writes nothing to standard output. *)
Definition keeps_stdout {A} (m : Proc A) : Prop :=
  ∀ s s' r, m s = (s', r) → stdout s' = stdout s.

(** The destination named by [-outFile] (standard output when the name is
    empty) holds after the run what it held before. *)
Definition destination_untouched (outFileName : string) (s s' : State)
  : Prop :=
  stdout s' = stdout s ∧ files s' !! outFileName = files s !! outFileName.

(** ** The revision before: one cache file for every thread

    The first half of [main.go] is the previous revision of the program.  Its
    [getComment], [getThreadFromAPI], [fetchFromAPI] and
    [filterTextFromKeywords] are the ones above, word for word; it differs in
    how [main] obtains the comments: the cache is the single file
    [comments.json] of the working directory, read with [os.Open] and written
    after the fetch. *)

(** What a read through a handle yields: only a regular file has bytes. *)
Definition file_read (s : State) (f : os_File) : result string :=
  match f with
  | os_Stdout => Err "bad file descriptor"
  | os_Named name =>
      match files s !! name with
      | Some bytes => Ok bytes
      | None => Err "is a directory"
      end
  end.

Module V1.

Definition defaultFileName : string := "comments.json".

Definition fetchFromFile (w : World) (filename : string)
  : Proc (result (list hnComment)) :=
  r ← os_Open filename;
  match r with
  | Err e => ret (Err e)
  | Ok file =>
      s ← get_state;
      match file_read s file with
      | Err e => ret (Err e)
      | Ok bytes => ret (json_Decode w bytes)
      end
  end.

(** The first block of [main]: the comments, from the cache file or from
    the network.  [if err != nil { log.Fatalln(err) }] is what
    [fatalnWrapper] does. *)
Definition main_comments (w : World) (sched : list nat) (threadID : Z)
  : Proc (list hnComment) :=
  s ← get_state;
  if os_Stat s defaultFileName then
    log_Println ("Reading cached comments from " +:+ defaultFileName) ;;
    r ← fetchFromFile w defaultFileName;
    fatalnWrapper r
  else
    log_Println
      ("comments.json not found, attempting to fetch based on supplied threadID: "
       +:+ strconv_Itoa threadID) ;;
    comments ← fetchFromAPI w sched threadID;
    r ← os_Create defaultFileName;
    match r with
    | Err e => log_Println "bazaaaa" ;; log_Fatalln e
    | Ok defaultFile =>
        r ← json_NewEncoder_Encode w defaultFile comments;
        fatalnWrapper r ;;
        ret comments
    end.

Definition main_filter (w : World) (sched : list nat)
    (threadID : Z) (outFileName keywordsStr : string)
  : Proc (os_File * list hnComment) :=
  comments ← main_comments w sched threadID;
  outFile ←
    (if String.eqb outFileName "" then
       log_Println "No outfile specified, defaulting to stdout" ;;
       ret os_Stdout
     else
       r ← os_Create outFileName; fatalnWrapper r);
  let filter := mainFilter w keywordsStr in
  ret (outFile, filterComments filter comments).

Definition main (w : World) (sched : list nat)
    (threadID : Z) (outFileName keywordsStr : string) : Proc unit :=
  p ← main_filter w sched threadID outFileName keywordsStr;
  main_write w (fst p) (snd p).

End V1.

(** ** The first revision: [getFilterFunc]

    The oldest revision chooses the filter in a function of its own, from
    the keyword slice rather than from the flag. *)
Definition getFilterFunc (w : World) (keywords : list string)
  : filterFunction :=
  if (0 <? length keywords)%nat then
    fun text =>
      let lowerText := strings_ToLower w text in
      anyKeyword lowerText keywords
  else
    fun _ => true.

(** ** Upper-case bytes *)

(** ['A' <= c && c <= 'Z'] *)
Definition isUpper (c : ascii) : bool :=
  let n := N_of_ascii c in ((65 <=? n) && (n <=? 90))%N.

Fixpoint hasUpper (s : string) : bool :=
  match s with
  | EmptyString => false
  | String c s' => isUpper c || hasUpper s'
  end.

(** ** More frame conditions *)

(** A computation that leaves every file outside [P] as it found it,
    however it ends. *)
Definition keeps_files_outside (P : string → Prop) {A} (m : Proc A) : Prop :=
  ∀ s s' r, m s = (s', r) →
    ∀ name, ¬ P name → files s' !! name = files s !! name.

(** The files a run of [main] is entitled to write: the destination and the
    cache entry of the thread. *)
Definition main_may_touch (w : World) (threadID : Z) (outFileName : string)
    (name : string) : Prop :=
  name = outFileName
  ∨ ∃ usr, user_Current w = Ok usr ∧ name = cachedFileName usr threadID.

(** A computation whose only way to end the process is [log.Fatalln]. *)
Definition exits_with_1 {A} (m : Proc A) : Prop :=
  ∀ s s' code, m s = (s', Exit code) → code = 1.

(** A machine with a file of the user's own next to an old result. *)
Definition state_with_notes : State :=
  mkState {[ "notes.txt" := "remember the milk";
             "out.json" := "previous results" ]} ∅ "" [].

(** A working directory in which the previous revision has cached a thread. *)
Definition v1_cached_state : State :=
  mkState {[ V1.defaultFileName := toy_encode [c1001; c1002_wire] ]} ∅ "" [].

(** ** The cache format

    [encoding/json] is a library, not code of this repository, and the
    program only calls it.  The two ends of the cache are therefore written
    down here from the description of the cache file: a JSON array of
    objects with the fields [by], [id], [parent] and [text], in the order of
    the struct, followed by the newline that an encoder ends a value with.
    Strings are text: a byte outside ASCII is written as it is. *)

Definition dquote : ascii := "034"%char.
Definition backslash : ascii := "092"%char.

(** Lower-case hexadecimal digits, as the library writes them. *)
Definition hex_digit (n : N) : ascii :=
  if (n <? 10)%N then ascii_of_N (48 + n) else ascii_of_N (87 + n).

Definition hex_value (c : ascii) : option N :=
  let n := N_of_ascii c in
  if ((48 <=? n) && (n <=? 57))%N then Some (n - 48)%N
  else if ((97 <=? n) && (n <=? 102))%N then Some (n - 87)%N
  else if ((65 <=? n) && (n <=? 70))%N then Some (n - 55)%N
  else None.

Definition hex4 (h1 h2 h3 h4 : ascii) : option N :=
  match hex_value h1, hex_value h2, hex_value h3, hex_value h4 with
  | Some a, Some b, Some c, Some d => Some (((a * 16 + b) * 16 + c) * 16 + d)%N
  | _, _, _, _ => None
  end.

(** Modelled from the spec: one byte of a JSON string inside the quotes,
    in front of [rest]: the quote
    and the backslash are escaped, so are the control characters, and the
    three characters [<], [>] and [&] are written as [\u00XX]. *)
Definition escape_byte (c : ascii) (rest : string) : string :=
  let n := N_of_ascii c in
  if (n =? 34)%N then String backslash (String dquote rest)
  else if (n =? 92)%N then String backslash (String backslash rest)
  else if (n =? 10)%N then String backslash (String "n" rest)
  else if (n =? 13)%N then String backslash (String "r" rest)
  else if (n =? 9)%N then String backslash (String "t" rest)
  else if ((n <? 32) || (n =? 60) || (n =? 62) || (n =? 38))%N then
    String backslash (String "u" (String "0" (String "0"
      (String (hex_digit (n / 16)) (String (hex_digit (n mod 16)) rest)))))
  else String c rest.

Fixpoint escape (s : string) (rest : string) : string :=
  match s with
  | EmptyString => rest
  | String c s' => escape_byte c (escape s' rest)
  end.

(** Modelled from the spec: a JSON string, in front of [rest]. *)
Definition encode_string (s : string) (rest : string) : string :=
  String dquote (escape s (String dquote rest)).

(** Modelled from the spec: a JSON number; identifiers are whole numbers. *)
Definition encode_number (n : Z) (rest : string) : string :=
  strconv_Itoa n +:+ rest.

(** Modelled from the spec: a comment as a JSON object, its fields in the
    order of the struct. *)
Definition encode_comment (c : hnComment) (rest : string) : string :=
  String "{"
    (encode_string "by" (String ":" (encode_string (By c) (String ","
    (encode_string "id" (String ":" (encode_number (ID c) (String ","
    (encode_string "parent" (String ":" (encode_number (Parent c) (String ","
    (encode_string "text" (String ":" (encode_string (Text c)
    (String "}" rest)))))))))))))))).

(** The elements of a non-empty array, up to and including the bracket. *)
Fixpoint encode_elements (c : hnComment) (cs : list hnComment)
    (rest : string) : string :=
  match cs with
  | [] => encode_comment c (String "]" rest)
  | c' :: cs' => encode_comment c (String "," (encode_elements c' cs' rest))
  end.

(** Modelled from the spec: the encoder of the cache file ([json.Encoder]
    of the library, called at the end of [getComments]), which is not part
    of the repository.  A list of comments becomes a JSON array of objects
    with the fields [by], [id], [parent] and [text], and a final newline. *)
Definition encodeComments (comments : list hnComment) : string :=
  String "["
    match comments with
    | [] => String "]" (String "010" EmptyString)
    | c :: cs => encode_elements c cs (String "010" EmptyString)
    end.

(** Blanks between the tokens of a JSON text. *)
Definition is_space (c : ascii) : bool :=
  let n := N_of_ascii c in
  ((n =? 32) || (n =? 9) || (n =? 10) || (n =? 13))%N.

Fixpoint skip_space (input : string) : string :=
  match input with
  | EmptyString => EmptyString
  | String c rest => if is_space c then skip_space rest else input
  end.

Definition cons_byte (b : ascii) (r : option (string * string))
  : option (string * string) :=
  match r with
  | Some (s, rest) => Some (String b s, rest)
  | None => None
  end.

Definition app_bytes (bytes : string) (r : option (string * string))
  : option (string * string) :=
  match r with
  | Some (s, rest) => Some (bytes +:+ s, rest)
  | None => None
  end.

(** The UTF-8 bytes of a code point. *)
Definition utf8_encode (cp : N) : string :=
  if (cp <? 128)%N then String (ascii_of_N cp) EmptyString
  else if (cp <? 2048)%N then
    String (ascii_of_N (192 + cp / 64))
      (String (ascii_of_N (128 + cp mod 64)) EmptyString)
  else if (cp <? 65536)%N then
    String (ascii_of_N (224 + cp / 4096))
      (String (ascii_of_N (128 + (cp / 64) mod 64))
         (String (ascii_of_N (128 + cp mod 64)) EmptyString))
  else
    String (ascii_of_N (240 + cp / 262144))
      (String (ascii_of_N (128 + (cp / 4096) mod 64))
         (String (ascii_of_N (128 + (cp / 64) mod 64))
            (String (ascii_of_N (128 + cp mod 64)) EmptyString))).

(** The byte that a one-letter escape stands for. *)
Definition unescape_simple (e : ascii) : option ascii :=
  let n := N_of_ascii e in
  if ((n =? 34) || (n =? 92) || (n =? 47))%N then Some e
  else if (n =? 110)%N then Some "010"%char
  else if (n =? 114)%N then Some "013"%char
  else if (n =? 116)%N then Some "009"%char
  else if (n =? 98)%N then Some "008"%char
  else if (n =? 102)%N then Some "012"%char
  else None.

(** The low half of a surrogate pair written as [\uXXXX] at the head of the
    input, with what follows it. *)
Definition low_surrogate (input : string) : option (N * string) :=
  match input with
  | String b (String u (String h1 (String h2 (String h3 (String h4 rest))))) =>
      if Ascii.eqb b backslash && Ascii.eqb u "u" then
        match hex4 h1 h2 h3 h4 with
        | Some lo =>
            if ((56320 <=? lo) && (lo <? 57344))%N then Some (lo, rest)
            else None
        | None => None
        end
      else None
  | _ => None
  end.

(** Modelled from the spec: the inside of a JSON string, from after the
    opening quote up to the closing one; the text it stands for and the input that follows. *)
Fixpoint parse_string_body (input : string) : option (string * string) :=
  match input with
  | EmptyString => None
  | String c rest =>
      if Ascii.eqb c dquote then Some (EmptyString, rest)
      else if Ascii.eqb c backslash then
        match rest with
        | EmptyString => None
        | String e rest1 =>
            match unescape_simple e with
            | Some b => cons_byte b (parse_string_body rest1)
            | None =>
                if Ascii.eqb e "u" then
                  match rest1 with
                  | String h1 (String h2 (String h3 (String h4 rest2))) =>
                      match hex4 h1 h2 h3 h4 with
                      | None => None
                      | Some cp =>
                          if ((55296 <=? cp) && (cp <? 56320))%N then
                            match rest2 with
                            | String b (String u (String l1 (String l2
                                (String l3 (String l4 rest3))))) =>
                                match low_surrogate rest2 with
                                | Some (lo, _) =>
                                    app_bytes
                                      (utf8_encode
                                         (65536 + (cp - 55296) * 1024
                                          + (lo - 56320)))
                                      (parse_string_body rest3)
                                | None =>
                                    app_bytes (utf8_encode 65533)
                                      (parse_string_body rest2)
                                end
                            | _ =>
                                app_bytes (utf8_encode 65533)
                                  (parse_string_body rest2)
                            end
                          else if ((56320 <=? cp) && (cp <? 57344))%N then
                            app_bytes (utf8_encode 65533)
                              (parse_string_body rest2)
                          else
                            app_bytes (utf8_encode cp)
                              (parse_string_body rest2)
                      end
                  | _ => None
                  end
                else None
            end
        end
      else if (N_of_ascii c <? 32)%N then None
      else cons_byte c (parse_string_body rest)
  end.

Definition parse_string (input : string) : option (string * string) :=
  match skip_space input with
  | String c rest => if Ascii.eqb c dquote then parse_string_body rest else None
  | EmptyString => None
  end.

(** The characters of a whole number. *)
Definition is_digit (c : ascii) : bool :=
  let n := N_of_ascii c in ((48 <=? n) && (n <=? 57))%N.

Definition is_number_char (c : ascii) : bool :=
  is_digit c || Ascii.eqb c "-".

Fixpoint has_digit (s : string) : bool :=
  match s with
  | EmptyString => false
  | String c s' => is_digit c || has_digit s'
  end.

(** The longest run of number characters at the head of the input. *)
Fixpoint span_number (input : string) : string * string :=
  match input with
  | EmptyString => (EmptyString, EmptyString)
  | String c rest =>
      if is_number_char c then
        let '(token, rest') := span_number rest in (String c token, rest')
      else (EmptyString, input)
  end.

(** Modelled from the spec: a JSON number that is a whole number. *)
Definition parse_number (input : string) : option (Z * string) :=
  let '(token, rest) := span_number (skip_space input) in
  if has_digit token then
    match NilEmpty.int_of_string token with
    | Some d => Some (Z.of_int d, rest)
    | None => None
    end
  else None.

(** The value of one member, stored in the field that its key names.  A
    cache file has no other keys. *)
Definition parse_field (key : string) (c : hnComment) (input : string)
  : option (hnComment * string) :=
  if String.eqb key "by" then
    match parse_string input with
    | Some (v, rest) => Some (mkComment v (ID c) (Parent c) (Text c), rest)
    | None => None
    end
  else if String.eqb key "id" then
    match parse_number input with
    | Some (v, rest) => Some (mkComment (By c) v (Parent c) (Text c), rest)
    | None => None
    end
  else if String.eqb key "parent" then
    match parse_number input with
    | Some (v, rest) => Some (mkComment (By c) (ID c) v (Text c), rest)
    | None => None
    end
  else if String.eqb key "text" then
    match parse_string input with
    | Some (v, rest) => Some (mkComment (By c) (ID c) (Parent c) v, rest)
    | None => None
    end
  else None.

(** Modelled from the spec: the members of an object, in any order, up to
    and including the closing brace.  [fuel] bounds the number of members; the length of the input is
    always enough. *)
Fixpoint parse_members (fuel : nat) (c : hnComment) (input : string)
  : option (hnComment * string) :=
  match fuel with
  | O => None
  | S fuel' =>
      match parse_string input with
      | None => None
      | Some (key, rest) =>
          match skip_space rest with
          | String colon rest1 =>
              if Ascii.eqb colon ":" then
                match parse_field key c rest1 with
                | None => None
                | Some (c', rest2) =>
                    match skip_space rest2 with
                    | String sep rest3 =>
                        if Ascii.eqb sep "," then parse_members fuel' c' rest3
                        else if Ascii.eqb sep "}" then Some (c', rest3)
                        else None
                    | EmptyString => None
                    end
                end
              else None
          | EmptyString => None
          end
      end
  end.

(** Modelled from the spec: an object; a field that is not mentioned keeps
    its zero value. *)
Definition parse_object (input : string) : option (hnComment * string) :=
  match skip_space input with
  | String open rest =>
      if Ascii.eqb open "{" then
        match skip_space rest with
        | String close rest' =>
            if Ascii.eqb close "}" then Some (mkComment "" 0 0 "", rest')
            else parse_members (String.length rest) (mkComment "" 0 0 "") rest
        | EmptyString => None
        end
      else None
  | EmptyString => None
  end.

(** The elements of a non-empty array, up to and including the bracket. *)
Fixpoint parse_elements (fuel : nat) (input : string)
  : option (list hnComment * string) :=
  match fuel with
  | O => None
  | S fuel' =>
      match parse_object input with
      | None => None
      | Some (c, rest) =>
          match skip_space rest with
          | String sep rest' =>
              if Ascii.eqb sep "," then
                match parse_elements fuel' rest' with
                | Some (cs, rest'') => Some (c :: cs, rest'')
                | None => None
                end
              else if Ascii.eqb sep "]" then Some ([c], rest')
              else None
          | EmptyString => None
          end
      end
  end.

(** Modelled from the spec: an array of objects, or [null] for none. *)
Definition parse_array (input : string) : option (list hnComment * string) :=
  match skip_space input with
  | String open rest =>
      if Ascii.eqb open "[" then
        match skip_space rest with
        | String close rest' =>
            if Ascii.eqb close "]" then Some ([], rest')
            else parse_elements (String.length rest) rest
        | EmptyString => None
        end
      else if strings_HasPrefix (String open rest) "null" then Some ([], rest)
      else None
  | EmptyString => None
  end.

(** Modelled from the spec: the decoder of the cache file ([json.Decoder]
    of the library, called in [fetchFromFile]), which is not part of the
    repository.  It reads one value from the head of the stream, a JSON
    array of comment objects or [null], and leaves the rest; an empty stream
    is [io.EOF]. *)
Definition decodeComments (bytes : string) : result (list hnComment) :=
  match skip_space bytes with
  | EmptyString => Err "EOF"
  | _ =>
      match parse_array bytes with
      | Some (comments, _) => Ok comments
      | None => Err "invalid character"
      end
  end.

(** A world whose cache codec is the one above. *)
Definition with_cache_codec (w : World) : World :=
  {| user_Current := user_Current w;
     http_Get := http_Get w;
     json_Unmarshal_hnThread := json_Unmarshal_hnThread w;
     json_Unmarshal_hnComment := json_Unmarshal_hnComment w;
     html_UnescapeString := html_UnescapeString w;
     unicode_ToLower := unicode_ToLower w;
     json_Encode := fun cs => Ok (encodeComments cs);
     json_Decode := decodeComments |}.

(** * Properties *)

(** ** Strings *)

Section strings.
Implicit Types s p k : string.

Lemma strings_HasPrefix_spec s p :
  strings_HasPrefix s p = true ↔ ∃ rest, s = p +:+ rest.
Proof.
  revert s. induction p as [|a p IH]; intros s; simpl.
  - split; [intros _; by exists s | done].
  - destruct s as [|b s]; simpl.
    + split; [done | intros [rest ?]; discriminate].
    + rewrite andb_true_iff, Ascii.eqb_eq, IH. split.
      * intros [-> [rest ->]]. by exists rest.
      * intros [rest [= -> ->]]. eauto.
Qed.

(** [strings_Contains] is substring containment. *)
Lemma strings_Contains_spec s k :
  strings_Contains s k = true ↔ ∃ before after, s = before +:+ k +:+ after.
Proof.
  induction s as [|c s IH]; simpl; rewrite orb_true_iff, strings_HasPrefix_spec.
  - split.
    + intros [[rest ->]|?]; [by exists "", rest | done].
    + intros ([|??] & after & E); [|discriminate]. left. by exists after.
  - rewrite IH. split.
    + intros [[rest ->]|(before & after & ->)].
      * by exists "", rest.
      * by exists (String c before), after.
    + intros ([|c' before] & after & E); simpl in E.
      * left. by exists after.
      * injection E as -> ->. right. by exists before, after.
Qed.

Lemma strings_Contains_empty s : strings_Contains s "" = true.
Proof. by destruct s. Qed.

Lemma strings_Split_nonempty s sep : strings_Split s sep ≠ [].
Proof. induction s; simpl; repeat case_match; congruence. Qed.
End strings.

(** ** The text filter *)

Section text_filter.
Context (w : World).
Implicit Types (keywords : list string) (text : string).

Lemma anyKeyword_spec lowerText keywords :
  anyKeyword lowerText keywords = true ↔
  ∃ keyword, keyword ∈ keywords ∧ strings_Contains lowerText keyword = true.
Proof.
  induction keywords as [|k ks IH]; simpl.
  - split; [done | intros (? & []%elem_of_nil & _)].
  - destruct (strings_Contains lowerText k) eqn:Hk.
    + split; [intros _; exists k; split; [left | done] | done].
    + rewrite IH. split.
      * intros (k' & ? & ?). exists k'. split; [by right | done].
      * intros (k' & [->|?]%elem_of_cons & ?); [congruence | eauto].
Qed.

(** What the code decides: some keyword, exactly as it was typed, occurs
    in the lower-cased text. *)
Lemma filterTextFromKeywords_spec keywords text :
  filterTextFromKeywords w keywords text = true ↔
  ∃ keyword, keyword ∈ keywords ∧
    strings_Contains (strings_ToLower w text) keyword = true.
Proof. apply anyKeyword_spec. Qed.

(** The closure itself rejects every text when the slice is empty; [main]
    never builds it in that case. *)
Lemma filterTextFromKeywords_nil text :
  filterTextFromKeywords w [] text = false.
Proof. reflexivity. Qed.

Lemma filterComments_acc (filter : filterFunction) comments acc :
  fold_left
    (fun filteredComments c =>
       if filter (Text c) then filteredComments ++ [c] else filteredComments)
    comments acc
  = acc ++ List.filter (fun c => filter (Text c)) comments.
Proof.
  revert acc. induction comments as [|c cs IH]; intros acc; simpl.
  - by rewrite app_nil_r.
  - rewrite IH. destruct (filter (Text c)); [by rewrite <- app_assoc | done].
Qed.

Lemma filterComments_filter (filter : filterFunction) comments :
  filterComments filter comments
  = List.filter (fun c => filter (Text c)) comments.
Proof. unfold filterComments. by rewrite filterComments_acc. Qed.

Lemma List_filter_sublist {A} (p : A -> bool) (l : list A) :
  sublist (List.filter p l) l.
Proof.
  induction l as [|x l IH]; simpl; [constructor|].
  destruct (p x); by constructor.
Qed.
End text_filter.

(** C2 (keyword matching is case-insensitive on both sides).  The closure
    lower-cases the text and compares it with the keywords as typed: with the
    single keyword [You] and the text [I & you] it answers [false], although
    the lower-cased text does contain the lower-cased keyword. *)
Theorem filterTextFromKeywords_keeps_keyword_case (w : World) :
  filterTextFromKeywords w ["You"] "I & you" = false ∧
  strings_Contains (strings_ToLower w "I & you") (strings_ToLower w "You")
  = true.
Proof. split; reflexivity. Qed.

(** C7 (no keywords configured accepts everything).  With an empty
    [-keywords] value the predicate chosen by [main] is true of every text,
    and the filter loop keeps every comment. *)
Theorem mainFilter_no_keywords_accepts_all (w : World) :
  (∀ text, mainFilter w "" text = true) ∧
  (∀ comments, filterComments (mainFilter w "") comments = comments).
Proof.
  split; [done|]. intros comments. rewrite filterComments_filter.
  induction comments as [|c cs IH]; simpl; [done | by rewrite IH].
Qed.

(** C9 (an empty-string keyword accepts everything).  If the keyword list
    contains the empty string, the closure of [filterTextFromKeywords] is
    true of every text. *)
Theorem filterTextFromKeywords_empty_keyword (w : World)
    (keywords : list string) (text : string) :
  "" ∈ keywords → filterTextFromKeywords w keywords text = true.
Proof.
  intros Hin. apply filterTextFromKeywords_spec. exists "".
  split; [done | apply strings_Contains_empty].
Qed.

Lemma filterTextFromKeywords_empty_keyword_witness :
  "" ∈ strings_Split " you" " " ∧
  filterTextFromKeywords world_9996333 (strings_Split " you" " ") "hello world"
  = true.
Proof.
  split.
  - simpl. left.
  - apply (filterTextFromKeywords_empty_keyword world_9996333
             (strings_Split " you" " ") "hello world").
    simpl. left.
Defined.

(** How [-keywords] values with a stray space yield an empty keyword. *)
Example strings_Split_leading_space :
  strings_Split " you" " " = [""; "you"].
Proof. reflexivity. Qed.

Example strings_Split_trailing_space :
  strings_Split "you " " " = ["you"; ""].
Proof. reflexivity. Qed.

Example strings_Split_doubled_space :
  strings_Split "go  rust" " " = ["go"; ""; "rust"].
Proof. reflexivity. Qed.

(** C10 (filtering is an order-preserving subsequence).  The filter loop of
    [main] returns the input comments whose text satisfies the predicate:
    the same elements, in the same order, with the same multiplicity. *)
Theorem filterComments_subsequence (filter : filterFunction)
    (comments : list hnComment) :
  filterComments filter comments
  = List.filter (fun c => filter (Text c)) comments
  ∧ sublist (filterComments filter comments) comments
  ∧ (∀ c, c ∈ filterComments filter comments
          ↔ c ∈ comments ∧ filter (Text c) = true).
Proof.
  rewrite filterComments_filter. split; [done|].
  split; [apply List_filter_sublist|].
  intros c. rewrite !list_elem_of_In. apply filter_In.
Qed.

(** ** Fan-out and fan-in *)

Section fan_in.
Context (w : World).

Lemma pick_nonempty {A} (k : nat) (l : list A) :
  l ≠ [] → ∃ i x, l !! i = Some x ∧ pick k l = Some (x, delete i l).
Proof.
  intros Hl. unfold pick.
  assert (k mod length l < length l)%nat as Hlt.
  { apply Nat.mod_upper_bound. destruct l; [done | simpl; lia]. }
  apply lookup_lt_is_Some_2 in Hlt as [x Hx].
  exists (k mod length l)%nat, x. by rewrite Hx.
Qed.

Lemma lookup_map_Ok (wires : list hnComment) (i : nat) (r : result hnComment) :
  map Ok wires !! i = Some r → ∃ c, r = Ok c ∧ wires !! i = Some c.
Proof.
  revert i. induction wires as [|c cs IH]; intros [|i]; simpl; try done.
  - intros [= <-]. eauto.
  - apply IH.
Qed.

Lemma delete_map_Ok (wires : list hnComment) (i : nat) :
  delete i (map Ok wires) = map (@Ok hnComment) (delete i wires).
Proof.
  revert i. induction wires as [|c cs IH]; intros [|i]; simpl; try done.
  f_equal. apply IH.
Qed.

(** When every worker has a comment to send, the loop runs to its end
    whatever the schedule, leaves the state alone and has received each
    comment exactly once. *)
Lemma recvLoop_all_sent (n : nat) :
  ∀ sched (wires acc : list hnComment) s,
    length wires = n →
    ∃ out, recvLoop n sched (map Ok wires) acc s = (s, Ret (acc ++ out))
           ∧ out ≡ₚ wires.
Proof.
  induction n as [|n IH]; intros sched wires acc s Hlen.
  - destruct wires; [|done]. exists []. by rewrite app_nil_r.
  - destruct (pick_nonempty (hd 0%nat sched) (map Ok wires))
      as (i & r & Hi & Hpick).
    { destruct wires; done. }
    destruct (lookup_map_Ok _ _ _ Hi) as (c & -> & Hc).
    simpl. rewrite Hpick, delete_map_Ok.
    destruct (IH (tl sched) (delete i wires) (acc ++ [c]) s) as (out & -> & Hperm).
    { rewrite length_delete by eauto. lia. }
    exists (c :: out). split.
    + by rewrite <- app_assoc.
    + rewrite Hperm. symmetry. by apply delete_Permutation.
Qed.

Lemma Exists_delete_other {A} (P : A → Prop) (l : list A) (i : nat) (x : A) :
  Exists P l → l !! i = Some x → ¬ P x → Exists P (delete i l).
Proof.
  intros HE. revert i. induction HE as [y l Hy|y l HE IH]; intros [|i]; simpl.
  - intros [= ->] ?. done.
  - intros _ _. by left.
  - intros _ _. done.
  - intros ??. right. eauto.
Qed.

(** When some worker dies, so does the process, whatever the schedule; the
    only trace is one more line on the log. *)
Lemma recvLoop_some_failed (n : nat) :
  ∀ sched (senders : list (result hnComment)) acc s,
    length senders = n →
    Exists (fun r => ∃ e, r = Err e) senders →
    ∃ e, recvLoop n sched senders acc s = (logged e s, Exit 1).
Proof.
  induction n as [|n IH]; intros sched senders acc s Hlen HE.
  - destruct senders; [inversion HE | done].
  - destruct (pick_nonempty (hd 0%nat sched) senders) as (i & r & Hi & Hpick).
    { intros ->. inversion HE. }
    simpl. rewrite Hpick. destruct r as [c|e]; [|by exists e].
    apply IH.
    + rewrite length_delete by eauto. lia.
    + eapply Exists_delete_other; [done.. |]. intros [e ?]. done.
Qed.
End fan_in.

Section remote.
Context (w : World).

Lemma getThreadFromAPI_ok url bytes thread s :
  http_Get w url = Ok bytes →
  json_Unmarshal_hnThread w bytes = Ok thread →
  getThreadFromAPI w url s = (s, Ret thread).
Proof.
  intros Hget Hjson. unfold getThreadFromAPI, mbind, Proc_bind, bind.
  rewrite Hget. simpl. by rewrite Hjson.
Qed.

Lemma fetchFromAPI_unfold sched threadID thread s :
  getThreadFromAPI w (urlToFormat threadID) s = (s, Ret thread) →
  fetchFromAPI w sched threadID s
  = recvLoop (length (Kids thread)) sched
      (map (fun id => getComment w (urlToFormat id)) (Kids thread)) [] s.
Proof.
  intros Hthread. unfold fetchFromAPI, mbind, Proc_bind, bind.
  by rewrite Hthread.
Qed.

Lemma senders_all_ok (kids : list Z) (wires : list hnComment) :
  Forall2 (fun id c => getComment w (urlToFormat id) = Ok c) kids wires →
  map (fun id => getComment w (urlToFormat id)) kids = map Ok wires.
Proof. induction 1 as [|id c ?? Hc _ IH]; simpl; [done | by rewrite Hc, IH]. Qed.

(** What a worker sends is the decoded item with its text unescaped. *)
Lemma getComment_ok url c :
  getComment w url = Ok c →
  ∃ bytes hnComm,
    http_Get w url = Ok bytes ∧
    json_Unmarshal_hnComment w bytes = Ok hnComm ∧
    c = mkComment (By hnComm) (ID hnComm) (Parent hnComm)
          (html_UnescapeString w (Text hnComm)).
Proof.
  unfold getComment. destruct (http_Get w url) as [bytes|]; [|done].
  destruct (json_Unmarshal_hnComment w bytes) as [hnComm|] eqn:Hjson; [|done].
  intros [= <-]. by exists bytes, hnComm.
Qed.

(** Every comment that [recvLoop] hands back was sent by a worker. *)
Lemma recvLoop_from_senders (n : nat) :
  ∀ sched senders acc s s' comments,
    recvLoop n sched senders acc s = (s', Ret comments) →
    ∀ c, c ∈ comments → c ∈ acc ∨ Ok c ∈ senders.
Proof.
  induction n as [|n IH]; intros sched senders acc s s' comments; simpl.
  - intros [= _ <-] c ?. by left.
  - unfold pick. destruct (senders !! _) as [[c'|e]|] eqn:Hi; [|done..].
    intros Hrun c Hc.
    destruct (IH _ _ _ _ _ _ Hrun c Hc) as [[?| ->%list_elem_of_singleton]%elem_of_app|?].
    + by left.
    + right. by eapply list_elem_of_lookup_2.
    + right. eapply elem_of_sublist; [done | apply sublist_delete].
Qed.
End remote.

(** C4 (fan-in completeness).  If the thread is fetched and decoded and no
    child fetch fails, [fetchFromAPI] returns under every schedule, with as
    many comments as the thread has child identifiers: the comments of the
    children, each once, in some order. *)
Theorem fetchFromAPI_fan_in (w : World) (sched : list nat) (threadID : Z)
    (s : State) (bytes : string) (thread : hnThread) (wires : list hnComment) :
  http_Get w (urlToFormat threadID) = Ok bytes →
  json_Unmarshal_hnThread w bytes = Ok thread →
  Forall2 (fun id c => getComment w (urlToFormat id) = Ok c) (Kids thread) wires →
  ∃ comments,
    fetchFromAPI w sched threadID s = (s, Ret comments)
    ∧ length comments = length (Kids thread)
    ∧ comments ≡ₚ wires.
Proof.
  intros Hget Hjson Hkids.
  rewrite (fetchFromAPI_unfold w sched threadID thread)
    by eauto using getThreadFromAPI_ok.
  rewrite (senders_all_ok w _ _ Hkids).
  destruct (recvLoop_all_sent (length (Kids thread)) sched wires [] s)
    as (out & -> & Hperm).
  { symmetry. by eapply Forall2_length. }
  exists out. split; [done|]. split; [|done].
  rewrite Hperm. symmetry. by eapply Forall2_length.
Qed.

Lemma fetchFromAPI_fan_in_witness :
  ∃ comments,
    fetchFromAPI world_9996333 [1%nat] 9996333 empty_state
    = (empty_state, Ret comments)
    ∧ length comments = 2%nat
    ∧ comments ≡ₚ [c1001; c1002_wire].
Proof.
  apply (fetchFromAPI_fan_in world_9996333 [1%nat] 9996333 empty_state
           "thread 9996333" (mkThread [1001; 1002]) [c1001; c1002_wire]).
  - reflexivity.
  - reflexivity.
  - repeat constructor.
Defined.

(** ** Cache store *)

Section cache.
Context (w : World).

Lemma os_Stat_file s name :
  is_Some (files s !! name) → os_Stat s name = true.
Proof. intros ?. unfold os_Stat. by rewrite bool_decide_eq_true_2. Qed.

Lemma os_Stat_false s name :
  os_Stat s name = false → files s !! name = None ∧ name ∉ dirs s.
Proof.
  unfold os_Stat. intros [H1 H2]%orb_false_iff.
  apply bool_decide_eq_false_1 in H1, H2.
  split; [|done]. by apply eq_None_not_Some.
Qed.

Lemma os_Create_ok s name :
  name ∉ dirs s →
  os_Create name s
  = (mkState (<[name := ""]> (files s)) (dirs s) (stdout s) (logs s),
     Ret (Ok (os_Named name))).
Proof. intros ?. unfold os_Create. by rewrite bool_decide_eq_false_2. Qed.

(** The unused [getCachedFile] opens an existing file without touching the
    file system. *)
Lemma getCachedFile_existing s name :
  is_Some (files s !! name) →
  getCachedFile name s = (s, Ret (Ok (os_Named name))).
Proof.
  intros Hfile. unfold getCachedFile, mbind, Proc_bind, bind, get_state.
  rewrite (os_Stat_file s name Hfile). unfold os_Open.
  by rewrite (bool_decide_eq_true_2 _ Hfile).
Qed.
End cache.

(** C1 (cache-hit idempotence).  On a cache hit [getComments] reopens the
    entry with [os.Create]: whatever the entry held, it is truncated, the
    decoder meets an empty stream, and the process exits with status 1
    instead of returning the cached comments. *)
Theorem getComments_cache_hit_truncates (w : World) (sched : list nat)
    (threadID : Z) (s : State) (usr e : string) :
  user_Current w = Ok usr →
  is_Some (files s !! cachedFileName usr threadID) →
  cachedFileName usr threadID ∉ dirs s →
  json_Decode w "" = Err e →
  ∃ s',
    getComments w sched threadID s = (s', Exit 1)
    ∧ files s' = <[cachedFileName usr threadID := ""]> (files s)
    ∧ logs s'
      = logs s ++ ["Reading cached comments from "
                     +:+ cachedFileName usr threadID; e].
Proof.
  intros Husr Hfile Hdir Heof.
  unfold getComments, mbind, Proc_bind, bind. rewrite Husr. simpl.
  unfold fileExists, mbind, Proc_bind, bind, get_state, ret.
  rewrite (os_Stat_file s _ Hfile). simpl.
  rewrite os_Create_ok by done. simpl.
  unfold fetchFromFile, mbind, Proc_bind, bind, get_state, ret. simpl.
  rewrite lookup_insert_eq. simpl. rewrite Heof. simpl.
  eexists. split; [done|]. simpl. split; [done|]. by rewrite <- app_assoc.
Qed.

Lemma getComments_cache_hit_truncates_witness :
  json_Decode world_9996333
    (default "" (files cached_state !! cachedFileName "/home/hn" 9996333))
  = Ok [c1001; c1002_wire]
  ∧ ∃ s',
      getComments world_9996333 [] 9996333 cached_state = (s', Exit 1)
      ∧ files s' = <[cachedFileName "/home/hn" 9996333 := ""]> (files cached_state)
      ∧ logs s'
        = logs cached_state
          ++ ["Reading cached comments from "
                +:+ cachedFileName "/home/hn" 9996333; "EOF"].
Proof.
  split; [vm_compute; reflexivity|].
  apply (getComments_cache_hit_truncates world_9996333 [] 9996333
           cached_state "/home/hn" "EOF").
  - reflexivity.
  - vm_compute. eexists. reflexivity.
  - vm_compute. intros H. discriminate H.
  - reflexivity.
Defined.

(** ** What reaches standard output *)

Create HintDb proc_frame.

Section frame.
Context (w : World).

Lemma keeps_stdout_ret {A} (a : A) : keeps_stdout (ret a).
Proof. by intros s s' r [= <- _]. Qed.

Lemma keeps_stdout_bind {A B} (m : Proc A) (k : A → Proc B) :
  keeps_stdout m → (∀ a, keeps_stdout (k a)) → keeps_stdout (m ≫= k).
Proof.
  intros Hm Hk s s' r. unfold mbind, Proc_bind, bind.
  destruct (m s) as [s1 [a|code]] eqn:Hms.
  - intros Hks. rewrite (Hk a _ _ _ Hks). eauto.
  - intros [= <- _]. eauto.
Qed.

Lemma keeps_stdout_log_Println msg : keeps_stdout (log_Println msg).
Proof. by intros s s' r [= <- _]. Qed.

Lemma keeps_stdout_log_Fatalln {A} msg : keeps_stdout (@log_Fatalln A msg).
Proof. by intros s s' r [= <- _]. Qed.

Lemma keeps_stdout_fatalnWrapper {A} (r : result A) :
  keeps_stdout (fatalnWrapper r).
Proof.
  destruct r; [apply (keeps_stdout_ret a) | apply keeps_stdout_log_Fatalln].
Qed.

Lemma keeps_stdout_get_state : keeps_stdout get_state.
Proof. by intros s s' r [= <- _]. Qed.

Lemma keeps_stdout_os_Create name : keeps_stdout (os_Create name).
Proof.
  intros s s' r. unfold os_Create. case_bool_decide; by intros [= <- _].
Qed.

Lemma keeps_stdout_os_MkdirAll name : keeps_stdout (os_MkdirAll name).
Proof.
  intros s s' r. unfold os_MkdirAll. case_bool_decide; by intros [= <- _].
Qed.

Lemma keeps_stdout_Encode_named name v :
  keeps_stdout (json_NewEncoder_Encode w (os_Named name) v).
Proof.
  intros s s' r. unfold json_NewEncoder_Encode.
  destruct (json_Encode w v); by intros [= <- _].
Qed.

Lemma keeps_stdout_recvLoop n :
  ∀ sched senders acc, keeps_stdout (recvLoop n sched senders acc).
Proof.
  induction n as [|n IH]; intros sched senders acc; simpl.
  - apply (keeps_stdout_ret acc).
  - destruct (pick _ senders) as [[[c|e] rest]|].
    + apply IH.
    + apply keeps_stdout_log_Fatalln.
    + by intros s s' r [= <- _].
Qed.

Lemma keeps_stdout_fileExists filename : keeps_stdout (fileExists filename).
Proof. by intros s s' r [= <- _]. Qed.

Lemma keeps_stdout_fetchFromFile file : keeps_stdout (fetchFromFile w file).
Proof. by intros s s' r [= <- _]. Qed.

(** A file that has just been created is a named file. *)
Lemma keeps_stdout_os_Create_then {B} name (k : os_File → Proc B) :
  keeps_stdout (k (os_Named name)) →
  keeps_stdout (os_Create name ≫= λ r, fatalnWrapper r ≫= k).
Proof.
  intros Hk s s' r. unfold mbind, Proc_bind, bind, os_Create.
  case_bool_decide; simpl.
  - by intros [= <- _].
  - intros Hks. by rewrite (Hk _ _ _ Hks).
Qed.

Hint Resolve keeps_stdout_ret keeps_stdout_log_Println
  keeps_stdout_log_Fatalln keeps_stdout_fatalnWrapper keeps_stdout_get_state
  keeps_stdout_os_MkdirAll keeps_stdout_Encode_named keeps_stdout_recvLoop
  keeps_stdout_fileExists keeps_stdout_fetchFromFile : proc_frame.

Ltac frame_tac :=
  repeat first
    [ solve [eauto with proc_frame]
    | apply keeps_stdout_os_Create_then
    | apply keeps_stdout_bind; [|intros ?]
    | match goal with
      | |- keeps_stdout (if ?b then _ else _) => destruct b
      end ].

Lemma keeps_stdout_fetchFromAPI sched threadID :
  keeps_stdout (fetchFromAPI w sched threadID).
Proof. unfold fetchFromAPI, getThreadFromAPI. frame_tac. Qed.

Hint Resolve keeps_stdout_fetchFromAPI : proc_frame.

Lemma keeps_stdout_getComments sched threadID :
  keeps_stdout (getComments w sched threadID).
Proof. unfold getComments. frame_tac. Qed.
End frame.

(** ** A cold cache *)

Section cache_miss.
Context (w : World).

Lemma append_cons_ne (x y : string) (c : ascii) : x +:+ String c y ≠ x.
Proof. induction x as [|a x IH]; simpl; [done | intros [= ?]; done]. Qed.

Lemma cachedFileName_not_defaultDir usr threadID :
  cachedFileName usr threadID ≠ defaultDir usr.
Proof. unfold cachedFileName. apply append_cons_ne. Qed.

(** On a miss the cache file is created, empty, before anything is fetched;
    what remains to do runs from that state. *)
Lemma getComments_miss sched threadID usr s :
  user_Current w = Ok usr →
  os_Stat s (cachedFileName usr threadID) = false →
  ∃ s1,
    files s1 = <[cachedFileName usr threadID := ""]> (files s)
    ∧ stdout s1 = stdout s
    ∧ getComments w sched threadID s
      = (comments ← fetchFromAPI w sched threadID;
         r ← json_NewEncoder_Encode w
               (os_Named (cachedFileName usr threadID)) comments;
         fatalnWrapper r;;
         ret comments) s1.
Proof.
  intros Husr Hmiss. destruct (os_Stat_false _ _ Hmiss) as [Hfile Hdir].
  unfold getComments, mbind at 1 2, Proc_bind, bind. rewrite Husr. simpl.
  unfold fileExists at 1, mbind at 1, Proc_bind, bind, get_state, ret.
  rewrite Hmiss. simpl.
  unfold mbind at 1 2 3, Proc_bind, bind, fileExists, get_state, ret. simpl.
  unfold os_Stat at 1. simpl.
  destruct (bool_decide (is_Some (files s !! defaultDir usr))
            || bool_decide (defaultDir usr ∈ dirs s)) eqn:Hhave; simpl.
  - unfold mbind at 1 2, Proc_bind, bind.
    rewrite os_Create_ok by done. simpl.
    eexists. split; [|split]. 3: reflexivity. all: done.
  - apply orb_false_iff in Hhave as [Hnofile _].
    unfold mbind at 1 2, Proc_bind, bind, os_MkdirAll. simpl.
    rewrite Hnofile. simpl.
    unfold mbind at 1 2, Proc_bind, bind.
    rewrite os_Create_ok; simpl.
    { eexists. split; [|split]. 3: reflexivity. all: done. }
    pose proof (cachedFileName_not_defaultDir usr threadID) as Hne.
    intros [Heq%elem_of_singleton|?]%elem_of_union; done.
Qed.

Lemma Exists_senders_failed (kids : list Z) :
  Exists (fun id => ∃ e, getComment w (urlToFormat id) = Err e) kids →
  Exists (fun r => ∃ e, r = Err e)
    (map (fun id => getComment w (urlToFormat id)) kids).
Proof. induction 1; simpl; [by left | by right]. Qed.

Lemma fetchFromAPI_child_failed sched threadID bytes thread s :
  http_Get w (urlToFormat threadID) = Ok bytes →
  json_Unmarshal_hnThread w bytes = Ok thread →
  Exists (fun id => ∃ e, getComment w (urlToFormat id) = Err e) (Kids thread) →
  ∃ e, fetchFromAPI w sched threadID s = (logged e s, Exit 1).
Proof.
  intros Hget Hjson Hfail.
  rewrite (fetchFromAPI_unfold w sched threadID thread)
    by eauto using getThreadFromAPI_ok.
  apply recvLoop_some_failed; [by rewrite length_map|].
  by apply Exists_senders_failed.
Qed.
End cache_miss.

(** C3 (no cache write when a child fetch fails).  Starting without a cache
    entry for the thread, a run in which some child fetch fails ends with
    exit status 1 and leaves a cache file for the thread behind: the file
    was created, empty, before the first fetch, and the next run will find
    it. *)
Theorem getComments_failed_fetch_leaves_cache_file (w : World)
    (sched : list nat) (threadID : Z) (s : State) (usr bytes : string)
    (thread : hnThread) :
  user_Current w = Ok usr →
  os_Stat s (cachedFileName usr threadID) = false →
  http_Get w (urlToFormat threadID) = Ok bytes →
  json_Unmarshal_hnThread w bytes = Ok thread →
  Exists (fun id => ∃ e, getComment w (urlToFormat id) = Err e) (Kids thread) →
  ∃ s',
    getComments w sched threadID s = (s', Exit 1)
    ∧ files s !! cachedFileName usr threadID = None
    ∧ files s' !! cachedFileName usr threadID = Some ""
    ∧ os_Stat s' (cachedFileName usr threadID) = true.
Proof.
  intros Husr Hmiss Hget Hjson Hfail.
  destruct (getComments_miss w sched threadID usr s Husr Hmiss)
    as (s1 & Hfiles & _ & ->).
  destruct (fetchFromAPI_child_failed w sched threadID bytes thread s1)
    as [e Hrun]; [done..|].
  exists (logged e s1). unfold mbind at 1, Proc_bind, bind. rewrite Hrun.
  split; [done|]. split; [by apply os_Stat_false|].
  assert (files (logged e s1) !! cachedFileName usr threadID = Some "")
    as Hentry by (simpl; by rewrite Hfiles, lookup_insert_eq).
  split; [done|]. apply os_Stat_file. by rewrite Hentry.
Qed.

Lemma getComments_failed_fetch_leaves_cache_file_witness :
  ∃ s',
    getComments world_1002_down [] 9996333 empty_state = (s', Exit 1)
    ∧ files empty_state !! cachedFileName "/home/hn" 9996333 = None
    ∧ files s' !! cachedFileName "/home/hn" 9996333 = Some ""
    ∧ os_Stat s' (cachedFileName "/home/hn" 9996333) = true.
Proof.
  apply (getComments_failed_fetch_leaves_cache_file world_1002_down []
           9996333 empty_state "/home/hn" "thread 9996333"
           (mkThread [1001; 1002])).
  - reflexivity.
  - vm_compute. reflexivity.
  - reflexivity.
  - reflexivity.
  - right. left. exists "dial tcp: connection refused". reflexivity.
Defined.

(** ** [main] *)

Section main_program.
Context (w : World).

(** What [main] has done by the time the filter loop ends: standard output
    is untouched, and a destination named on the command line has been
    created or truncated. *)
Lemma main_filter_destination sched threadID outFileName keywordsStr
    s s1 outFile filteredComments :
  main_filter w sched threadID outFileName keywordsStr s
  = (s1, Ret (outFile, filteredComments)) →
  stdout s1 = stdout s
  ∧ (outFileName = "" → outFile = os_Stdout)
  ∧ (outFileName ≠ "" →
     outFile = os_Named outFileName ∧ files s1 !! outFileName = Some "").
Proof.
  unfold main_filter, mbind at 1, Proc_bind, bind.
  destruct (getComments w sched threadID s) as [sm [comments|code]] eqn:Hget;
    [|done].
  apply keeps_stdout_getComments in Hget as <-.
  destruct outFileName as [|c name]; simpl.
  - intros [= <- <- _]. done.
  - unfold mbind, Proc_bind, bind, os_Create. case_bool_decide; simpl; [done|].
    intros [= <- <- _]. simpl. by rewrite lookup_insert_eq.
Qed.

Lemma main_write_nil outFile s :
  main_write w outFile [] s
  = (logged
       "No results found based on the keywords supplied. Not writing outFile"
       s, Ret tt).
Proof. reflexivity. Qed.
End main_program.

(** What [main] does when the filtered list is empty: it ends normally,
    logs that there are no results and writes no JSON; standard output is
    as it was, and a destination file named on the command line exists and
    is empty, [os.Create] having run before the filter. *)
Theorem main_empty_result (w : World) (sched : list nat) (threadID : Z)
    (outFileName keywordsStr : string) (s s1 : State) (outFile : os_File) :
  main_filter w sched threadID outFileName keywordsStr s
  = (s1, Ret (outFile, [])) →
  ∃ s2,
    main w sched threadID outFileName keywordsStr s = (s2, Ret tt)
    ∧ logs s2
      = logs s1
        ++ ["No results found based on the keywords supplied. Not writing outFile"]
    ∧ stdout s2 = stdout s
    ∧ files s2 = files s1
    ∧ (outFileName ≠ "" → files s2 !! outFileName = Some "").
Proof.
  intros Hfilter.
  destruct (main_filter_destination w _ _ _ _ _ _ _ _ Hfilter)
    as (Hout & _ & Hfile).
  eexists. split.
  - unfold main, mbind, Proc_bind, bind. rewrite Hfilter. simpl.
    apply main_write_nil.
  - simpl. repeat split; [done|]. intros Hne. by apply Hfile.
Qed.

Lemma main_empty_result_witness :
  ∃ s2,
    main world_424242 [] 424242 "out.json" "xyz" state_with_out = (s2, Ret tt)
    ∧ logs s2
      = logs (main_filter world_424242 [] 424242 "out.json" "xyz"
                state_with_out).1
        ++ ["No results found based on the keywords supplied. Not writing outFile"]
    ∧ stdout s2 = stdout state_with_out
    ∧ files s2
      = files (main_filter world_424242 [] 424242 "out.json" "xyz"
                 state_with_out).1
    ∧ ("out.json" ≠ "" → files s2 !! "out.json" = Some "").
Proof.
  apply (main_empty_result world_424242 [] 424242 "out.json" "xyz"
           state_with_out
           (main_filter world_424242 [] 424242 "out.json" "xyz"
              state_with_out).1
           (os_Named "out.json")).
  vm_compute. reflexivity.
Defined.

(** C5 (an empty result writes nothing to the destination).  With the
    single comment [hello world] and the keyword [xyz] the filtered list is
    empty and [main] reports that it is not writing the output file, yet
    the file named by [-outFile] does not hold what it held before: its
    earlier contents are gone, and where there was no such file there is
    one now. *)
Lemma main_empty_result_rewrites_destination :
  (main_filter world_424242 [] 424242 "out.json" "xyz" state_with_out).2
  = Ret (os_Named "out.json", [])
  ∧ ¬ destination_untouched "out.json" state_with_out
        (main world_424242 [] 424242 "out.json" "xyz" state_with_out).1
  ∧ (main_filter world_424242 [] 424242 "out.json" "xyz" empty_state).2
    = Ret (os_Named "out.json", [])
  ∧ ¬ destination_untouched "out.json" empty_state
        (main world_424242 [] 424242 "out.json" "xyz" empty_state).1.
Proof.
  split; [vm_compute; reflexivity|].
  split; [intros [_ H]; vm_compute in H; discriminate H|].
  split; [vm_compute; reflexivity|].
  intros [_ H]. vm_compute in H. discriminate H.
Qed.

(** ** HTML unescaping *)

Section unescape.
Context (w : World).

Lemma elem_of_senders (kids : list Z) (c : hnComment) :
  Ok c ∈ map (fun id => getComment w (urlToFormat id)) kids →
  ∃ id, id ∈ kids ∧ getComment w (urlToFormat id) = Ok c.
Proof.
  induction kids as [|id kids IH]; simpl.
  - intros []%elem_of_nil.
  - intros [Hc|Hin]%elem_of_cons.
    + exists id. split; [left | done].
    + destruct (IH Hin) as (id' & ? & ?). exists id'. split; [by right | done].
Qed.

Lemma fetchFromAPI_comment_origin sched threadID s s' comments c :
  fetchFromAPI w sched threadID s = (s', Ret comments) →
  c ∈ comments →
  ∃ id, getComment w (urlToFormat id) = Ok c.
Proof.
  unfold fetchFromAPI, mbind, Proc_bind, bind.
  destruct (getThreadFromAPI w (urlToFormat threadID) s)
    as [s1 [thread|code]]; [|done].
  intros Hrun Hc.
  destruct (recvLoop_from_senders _ _ _ _ _ _ _ Hrun c Hc)
    as [[]%elem_of_nil|Hin].
  destruct (elem_of_senders _ _ Hin) as (id & _ & ?). eauto.
Qed.

Lemma mainFilter_you_matches : mainFilter w "you" "I & you" = true.
Proof. reflexivity. Qed.
End unescape.

(** C6 (HTML unescaping).  Every comment returned by [fetchFromAPI] is an
    item as decoded from the wire with its text passed through
    [html.UnescapeString].  In particular, for thread 9996333 with children
    1001 and 1002, where item 1001 has wire text [I &amp; you] (which
    unescapes to [I & you]) and item 1002 unescapes to something else, the
    output filtered on the keyword [you] holds exactly one comment whose
    text is [I & you]: item 1001. *)
Theorem fetchFromAPI_unescapes_text (w : World) (sched : list nat) (s : State) :
  (∀ threadID s' comments c,
     fetchFromAPI w sched threadID s = (s', Ret comments) →
     c ∈ comments →
     ∃ id bytes hnComm,
       http_Get w (urlToFormat id) = Ok bytes
       ∧ json_Unmarshal_hnComment w bytes = Ok hnComm
       ∧ c = mkComment (By hnComm) (ID hnComm) (Parent hnComm)
               (html_UnescapeString w (Text hnComm)))
  ∧ (∀ bytes bytes1 bytes2 wire1 wire2,
       http_Get w (urlToFormat 9996333) = Ok bytes →
       json_Unmarshal_hnThread w bytes = Ok (mkThread [1001; 1002]) →
       http_Get w (urlToFormat 1001) = Ok bytes1 →
       json_Unmarshal_hnComment w bytes1 = Ok wire1 →
       http_Get w (urlToFormat 1002) = Ok bytes2 →
       json_Unmarshal_hnComment w bytes2 = Ok wire2 →
       Text wire1 = "I &amp; you" →
       html_UnescapeString w "I &amp; you" = "I & you" →
       html_UnescapeString w (Text wire2) ≠ "I & you" →
       ∃ comments,
         fetchFromAPI w sched 9996333 s = (s, Ret comments)
         ∧ List.filter (fun c => String.eqb (Text c) "I & you")
             (filterComments (mainFilter w "you") comments)
           = [mkComment (By wire1) (ID wire1) (Parent wire1) "I & you"]).
Proof.
  split.
  - intros threadID s' comments c Hrun Hc.
    destruct (fetchFromAPI_comment_origin w _ _ _ _ _ _ Hrun Hc) as [id Hid].
    destruct (getComment_ok w _ _ Hid) as (bytes & hnComm & ? & ? & ?).
    by exists id, bytes, hnComm.
  - intros bytes bytes1 bytes2 wire1 wire2
      Hget Hjson Hget1 Hjson1 Hget2 Hjson2 Htext1 Hamp Hother.
    set (c1 := mkComment (By wire1) (ID wire1) (Parent wire1) "I & you").
    set (c2 := mkComment (By wire2) (ID wire2) (Parent wire2)
                 (html_UnescapeString w (Text wire2))).
    rewrite (fetchFromAPI_unfold w sched 9996333 (mkThread [1001; 1002]))
      by eauto using getThreadFromAPI_ok.
    assert (map (fun id => getComment w (urlToFormat id)) [1001; 1002]
            = map Ok [c1; c2]) as Hsenders.
    { simpl. unfold getComment.
      by rewrite Hget1, Hjson1, Hget2, Hjson2, Htext1, Hamp. }
    cbn [Kids length]. rewrite Hsenders.
    destruct (recvLoop_all_sent 2 sched [c1; c2] [] s) as (out & -> & Hperm);
      [done|].
    exists out. split; [done|].
    rewrite filterComments_filter.
    assert (String.eqb (html_UnescapeString w (Text wire2)) "I & you" = false)
      as Hneq by by apply String.eqb_neq.
    symmetry in Hperm.
    apply Permutation_length_2_inv in Hperm as [-> | ->];
      subst c1 c2; cbn [List.filter Text];
      rewrite mainFilter_you_matches;
      destruct (mainFilter w "you" (html_UnescapeString w (Text wire2)));
      cbn [List.filter Text]; by rewrite ?Hneq.
Qed.

Lemma fetchFromAPI_unescapes_text_witness :
  ∃ comments,
    fetchFromAPI world_9996333 [1%nat] 9996333 empty_state
    = (empty_state, Ret comments)
    ∧ List.filter (fun c => String.eqb (Text c) "I & you")
        (filterComments (mainFilter world_9996333 "you") comments)
      = [c1001].
Proof.
  apply (proj2 (fetchFromAPI_unescapes_text world_9996333 [1%nat] empty_state)
           "thread 9996333" "item 1001" "item 1002" c1001_wire c1002_wire).
  - reflexivity.
  - reflexivity.
  - reflexivity.
  - reflexivity.
  - reflexivity.
  - reflexivity.
  - reflexivity.
  - reflexivity.
  - vm_compute. intros H. discriminate H.
Defined.

(** * Further properties *)

(** ** The text filter, keyword by keyword *)

Section keywords.
Context (w : World).
Implicit Types (keywords : list string) (text s : string).

Lemma map_bytes_app f s1 s2 :
  map_bytes f (s1 +:+ s2) = map_bytes f s1 +:+ map_bytes f s2.
Proof. induction s1 as [|c s1 IH]; simpl; [done | by rewrite IH]. Qed.

Lemma hasUpper_app s1 s2 : hasUpper (s1 +:+ s2) = hasUpper s1 || hasUpper s2.
Proof.
  induction s1 as [|c s1 IH]; simpl; [done|]. by rewrite IH, orb_assoc.
Qed.

Lemma lower_byte_not_upper c : isUpper (lower_byte c) = false.
Proof. by destruct c as [[] [] [] [] [] [] [] []]. Qed.

Lemma hasUpper_lower s : hasUpper (map_bytes lower_byte s) = false.
Proof.
  induction s as [|c s IH]; simpl; [done|].
  by rewrite lower_byte_not_upper, IH.
Qed.

Lemma strings_ToLower_ascii text :
  isASCII text = true → strings_ToLower w text = map_bytes lower_byte text.
Proof. intros H. unfold strings_ToLower. by rewrite H. Qed.

Lemma anyKeyword_app lowerText keywords1 keywords2 :
  anyKeyword lowerText (keywords1 ++ keywords2)
  = anyKeyword lowerText keywords1 || anyKeyword lowerText keywords2.
Proof.
  induction keywords1 as [|k ks IH]; simpl; [done|].
  by destruct (strings_Contains lowerText k).
Qed.
End keywords.

(** The closure of [filterTextFromKeywords] accepts a text exactly when one
    of the keywords, byte for byte as it was given, occurs somewhere in the
    lower-cased text. *)
Theorem filterTextFromKeywords_substring (w : World) (keywords : list string)
    (text : string) :
  filterTextFromKeywords w keywords text = true ↔
  ∃ keyword before after,
    keyword ∈ keywords
    ∧ strings_ToLower w text = before +:+ keyword +:+ after.
Proof.
  rewrite filterTextFromKeywords_spec. split.
  - intros (k & Hk & (before & after & ?)%strings_Contains_spec).
    by exists k, before, after.
  - intros (k & before & after & Hk & Heq). exists k. split; [done|].
    apply strings_Contains_spec. by exists before, after.
Qed.

(** Keywords are alternatives: filtering on two keyword lists put together
    accepts what either list accepts. *)
Theorem filterTextFromKeywords_app (w : World)
    (keywords1 keywords2 : list string) (text : string) :
  filterTextFromKeywords w (keywords1 ++ keywords2) text
  = filterTextFromKeywords w keywords1 text
    || filterTextFromKeywords w keywords2 text.
Proof. unfold filterTextFromKeywords. apply anyKeyword_app. Qed.

(** A keyword with an upper-case ASCII letter in it is dead: if every
    keyword has one, no ASCII text passes the filter. *)
Theorem filterTextFromKeywords_upper_case_keywords (w : World)
    (keywords : list string) (text : string) :
  isASCII text = true →
  Forall (fun keyword => hasUpper keyword = true) keywords →
  filterTextFromKeywords w keywords text = false.
Proof.
  intros Hascii Hupper. apply not_true_is_false.
  intros (k & Hk & Hin)%filterTextFromKeywords_spec.
  apply strings_Contains_spec in Hin as (before & after & Heq).
  rewrite strings_ToLower_ascii in Heq by done.
  pose proof (hasUpper_lower text) as Hnone.
  rewrite Heq, !hasUpper_app in Hnone.
  rewrite Forall_forall in Hupper. rewrite (Hupper k Hk) in Hnone.
  by rewrite orb_true_r in Hnone.
Qed.

Lemma filterTextFromKeywords_upper_case_keywords_witness :
  filterTextFromKeywords world_9996333 ["You"; "HELLO"] "Hello, I & YOU" = false.
Proof.
  apply (filterTextFromKeywords_upper_case_keywords world_9996333
           ["You"; "HELLO"] "Hello, I & YOU").
  - reflexivity.
  - repeat constructor.
Defined.

(** A lower-case keyword matches whatever the case of the text: an ASCII
    text passes as soon as it contains a stretch whose lower-casing is one
    of the keywords. *)
Theorem filterTextFromKeywords_text_case (w : World) (keywords : list string)
    (text before occurrence after : string) :
  isASCII text = true →
  text = before +:+ occurrence +:+ after →
  map_bytes lower_byte occurrence ∈ keywords →
  filterTextFromKeywords w keywords text = true.
Proof.
  intros Hascii -> Hk. apply filterTextFromKeywords_spec.
  exists (map_bytes lower_byte occurrence). split; [done|].
  apply strings_Contains_spec.
  exists (map_bytes lower_byte before), (map_bytes lower_byte after).
  rewrite strings_ToLower_ascii by done. by rewrite !map_bytes_app.
Qed.

Lemma filterTextFromKeywords_text_case_witness :
  filterTextFromKeywords world_9996333 ["rust"; "golang"]
    "We use GoLang daily" = true.
Proof.
  apply (filterTextFromKeywords_text_case world_9996333 ["rust"; "golang"]
           "We use GoLang daily" "We use " "GoLang" " daily").
  - reflexivity.
  - reflexivity.
  - simpl. right. left.
Defined.

(** ** Splitting the [-keywords] flag *)

Section split.
Implicit Types (s : string) (sep : ascii).

Lemma strings_Contains_byte_cons c s sep :
  strings_Contains (String c s) (String sep "")
  = Ascii.eqb sep c || strings_Contains s (String sep "").
Proof. simpl. by rewrite andb_true_r. Qed.

Lemma strings_Split_concat s sep :
  String.concat (String sep "") (strings_Split s sep) = s.
Proof.
  induction s as [|c s IH]; [done|]. cbn [strings_Split].
  pose proof (strings_Split_nonempty s sep) as Hne.
  destruct (strings_Split s sep) as [|field fields]; [done|].
  rewrite <- IH.
  destruct (Ascii.eqb_spec c sep) as [->|_]; [done|].
  by destruct fields.
Qed.

Lemma strings_Split_fields s sep :
  Forall (fun field => strings_Contains field (String sep "") = false)
    (strings_Split s sep).
Proof.
  induction s as [|c s IH]; cbn [strings_Split].
  - by repeat constructor.
  - pose proof (strings_Split_nonempty s sep) as Hne.
    destruct (strings_Split s sep) as [|field fields]; [done|].
    inversion IH as [|?? Hfield Hfields]; subst.
    destruct (Ascii.eqb_spec c sep) as [->|Hc].
    + constructor; [done|]. by constructor.
    + constructor; [|done]. rewrite strings_Contains_byte_cons, Hfield.
      rewrite orb_false_r. apply Ascii.eqb_neq. congruence.
Qed.
End split.

(** Splitting on a byte loses nothing: joining the fields with the separator
    gives the flag back, and no field contains the separator. *)
Theorem strings_Split_round_trip (s : string) (sep : ascii) :
  String.concat (String sep "") (strings_Split s sep) = s
  ∧ Forall (fun field => strings_Contains field (String sep "") = false)
      (strings_Split s sep).
Proof. split; [apply strings_Split_concat | apply strings_Split_fields]. Qed.

(** The first revision's [getFilterFunc], fed the split flag as its [main]
    does, decides exactly as the filter that the later [main] chooses from
    the flag itself: for the empty flag the one keyword is the empty string,
    which is found in every text. *)
Theorem getFilterFunc_agrees_with_mainFilter (w : World)
    (keywordsStr text : string) :
  getFilterFunc w (strings_Split keywordsStr " ") text
  = mainFilter w keywordsStr text.
Proof.
  unfold getFilterFunc, mainFilter.
  pose proof (strings_Split_nonempty keywordsStr " ") as Hne.
  destruct (strings_Split keywordsStr " ") as [|k ks] eqn:Hsplit; [done|].
  cbn [length Nat.ltb Nat.leb].
  destruct keywordsStr as [|c rest]; [|done].
  injection Hsplit as <- <-. cbn [String.length Nat.eqb anyKeyword].
  by rewrite strings_Contains_empty.
Qed.

(** ** Cache file names *)

Section names.
Implicit Types (x y s : string).

Lemma append_length x y :
  String.length (x +:+ y) = (String.length x + String.length y)%nat.
Proof. induction x as [|c x IH]; simpl; [done | by rewrite IH]. Qed.

Lemma append_inj_l s x y : s +:+ x = s +:+ y → x = y.
Proof. induction s as [|c s IH]; simpl; [done | intros [= ?]; auto]. Qed.

Lemma append_inj_r s x : ∀ y, x +:+ s = y +:+ s → x = y.
Proof.
  induction x as [|c x IH]; intros [|d y] Heq.
  - done.
  - apply (f_equal String.length) in Heq.
    rewrite !append_length in Heq. simpl in Heq. exfalso. lia.
  - apply (f_equal String.length) in Heq.
    rewrite !append_length in Heq. simpl in Heq. exfalso. lia.
  - simpl in Heq. injection Heq as -> Heq. f_equal. by apply IH.
Qed.

Lemma strconv_Itoa_inj (n m : Z) : strconv_Itoa n = strconv_Itoa m → n = m.
Proof.
  unfold strconv_Itoa. intros Heq. apply DecimalZ.to_int_inj.
  apply (f_equal NilEmpty.int_of_string) in Heq.
  rewrite !NilEmpty.isi in Heq. by injection Heq.
Qed.
End names.

(** Two threads never share a cache entry: for one user, different thread
    identifiers give different cache file names. *)
Theorem cachedFileName_inj (usr : string) (threadID1 threadID2 : Z) :
  cachedFileName usr threadID1 = cachedFileName usr threadID2 →
  threadID1 = threadID2.
Proof.
  unfold cachedFileName. intros Heq.
  apply append_inj_l, (append_inj_l "/") in Heq.
  by apply append_inj_r, strconv_Itoa_inj in Heq.
Qed.

Lemma cachedFileName_inj_witness :
  cachedFileName "/home/hn" 9996333 = cachedFileName "/home/hn" (9996332 + 1)
  ∧ 9996333 = 9996332 + 1.
Proof.
  split; [reflexivity|].
  apply (cachedFileName_inj "/home/hn" 9996333 (9996332 + 1)). reflexivity.
Defined.

(** ** When [fetchFromAPI] returns *)

Section fetch_returns.
Context (w : World).

Lemma Forall_undelete {A} (P : A → Prop) (l : list A) (i : nat) (x : A) :
  l !! i = Some x → P x → Forall P (delete i l) → Forall P l.
Proof.
  intros Hi Hx Hrest. rewrite (delete_Permutation l i x Hi). by constructor.
Qed.

(** A loop that runs to its end has heard from every worker and has left
    the state alone. *)
Lemma recvLoop_ret (n : nat) :
  ∀ sched (senders : list (result hnComment)) acc s s' comments,
    length senders = n →
    recvLoop n sched senders acc s = (s', Ret comments) →
    s' = s ∧ Forall (fun r => ∃ c, r = Ok c) senders.
Proof.
  induction n as [|n IH]; intros sched senders acc s s' comments Hlen; simpl.
  - intros [= <- _]. destruct senders; [by split | done].
  - destruct (pick_nonempty (hd 0%nat sched) senders) as (i & r & Hi & Hpick).
    { by destruct senders. }
    rewrite Hpick. destruct r as [c|e]; [|done].
    intros Hrun. apply IH in Hrun as [-> Hrest].
    + split; [done|]. eapply Forall_undelete; eauto.
    + rewrite length_delete by eauto. lia.
Qed.

(** With as many workers as receives the loop cannot starve: the only way
    it ends the process is [log.Fatalln]. *)
Lemma recvLoop_exit (n : nat) :
  ∀ sched (senders : list (result hnComment)) acc s s' code,
    length senders = n →
    recvLoop n sched senders acc s = (s', Exit code) →
    code = 1.
Proof.
  induction n as [|n IH]; intros sched senders acc s s' code Hlen; simpl.
  - done.
  - destruct (pick_nonempty (hd 0%nat sched) senders) as (i & r & Hi & Hpick).
    { by destruct senders. }
    rewrite Hpick. destruct r as [c|e].
    + apply IH. rewrite length_delete by eauto. lia.
    + by intros [= _ <-].
Qed.

Lemma senders_Forall_ok (kids : list Z) :
  Forall (fun r => ∃ c, r = Ok c)
    (map (fun id => getComment w (urlToFormat id)) kids) →
  Forall (fun id => ∃ c, getComment w (urlToFormat id) = Ok c) kids.
Proof.
  induction kids as [|id kids IH]; simpl; [done|].
  intros Hall. inversion Hall; subst. constructor; auto.
Qed.

Lemma Forall_ok_wires (kids : list Z) :
  Forall (fun id => ∃ c, getComment w (urlToFormat id) = Ok c) kids →
  ∃ wires,
    Forall2 (fun id c => getComment w (urlToFormat id) = Ok c) kids wires.
Proof.
  induction 1 as [|id kids [c Hc] _ [wires IH]].
  - by exists [].
  - exists (c :: wires). by constructor.
Qed.

Lemma getThreadFromAPI_ret url s s' thread :
  getThreadFromAPI w url s = (s', Ret thread) →
  s' = s ∧ ∃ bytes,
    http_Get w url = Ok bytes ∧ json_Unmarshal_hnThread w bytes = Ok thread.
Proof.
  unfold getThreadFromAPI, mbind, Proc_bind, bind.
  destruct (http_Get w url) as [bytes|e]; simpl; [|done].
  destruct (json_Unmarshal_hnThread w bytes) as [t|e] eqn:Hjson; simpl;
    [|done].
  intros [= <- <-]. split; [done|]. by exists bytes.
Qed.
End fetch_returns.

(** [fetchFromAPI] returns, under a given schedule or any other, exactly
    when the thread can be fetched and decoded and every child fetch
    succeeds; and when it returns it has changed nothing: no file, no
    output, no log line. *)
Theorem fetchFromAPI_returns_iff (w : World) (sched : list nat) (threadID : Z)
    (s : State) :
  ((∃ s' comments, fetchFromAPI w sched threadID s = (s', Ret comments)) ↔
   (∃ bytes thread,
      http_Get w (urlToFormat threadID) = Ok bytes
      ∧ json_Unmarshal_hnThread w bytes = Ok thread
      ∧ Forall (fun id => ∃ c, getComment w (urlToFormat id) = Ok c)
          (Kids thread)))
  ∧ (∀ s' comments,
       fetchFromAPI w sched threadID s = (s', Ret comments) → s' = s).
Proof.
  assert (∀ s' comments,
            fetchFromAPI w sched threadID s = (s', Ret comments) →
            s' = s ∧ ∃ bytes thread,
              http_Get w (urlToFormat threadID) = Ok bytes
              ∧ json_Unmarshal_hnThread w bytes = Ok thread
              ∧ Forall (fun id => ∃ c, getComment w (urlToFormat id) = Ok c)
                  (Kids thread)) as Hret.
  { intros s' comments. unfold fetchFromAPI, mbind, Proc_bind, bind.
    destruct (getThreadFromAPI w (urlToFormat threadID) s)
      as [s1 [thread|code]] eqn:Hthread; [|done].
    apply getThreadFromAPI_ret in Hthread as (-> & bytes & Hget & Hjson).
    intros Hrun. apply recvLoop_ret in Hrun as [-> Hall];
      [|by rewrite length_map].
    split; [done|]. exists bytes, thread. eauto using senders_Forall_ok. }
  split; [split|].
  - intros (s' & comments & Hrun). by apply Hret in Hrun as [_ ?].
  - intros (bytes & thread & Hget & Hjson & Hall).
    destruct (Forall_ok_wires w _ Hall) as [wires Hwires].
    rewrite (fetchFromAPI_unfold w sched threadID thread)
      by eauto using getThreadFromAPI_ok.
    rewrite (senders_all_ok w _ _ Hwires).
    destruct (recvLoop_all_sent (length (Kids thread)) sched wires [] s)
      as (out & -> & _); [|by eauto].
    symmetry. by eapply Forall2_length.
  - intros s' comments Hrun. by apply Hret in Hrun as [? _].
Qed.

(** ** How the process can end *)

Create HintDb proc_exit.

Section exit_status.
Context (w : World).

Lemma exits_with_1_ret {A} (a : A) : exits_with_1 (ret a).
Proof. by intros s s' code. Qed.

Lemma exits_with_1_bind {A B} (m : Proc A) (k : A → Proc B) :
  exits_with_1 m → (∀ a, exits_with_1 (k a)) → exits_with_1 (m ≫= k).
Proof.
  intros Hm Hk s s' code. unfold mbind, Proc_bind, bind.
  destruct (m s) as [s1 [a|code1]] eqn:Hms.
  - apply Hk.
  - intros [= _ <-]. eauto.
Qed.

Lemma exits_with_1_log_Println msg : exits_with_1 (log_Println msg).
Proof. by intros s s' code. Qed.

Lemma exits_with_1_log_Fatalln {A} msg : exits_with_1 (@log_Fatalln A msg).
Proof. by intros s s' code [= _ <-]. Qed.

Lemma exits_with_1_fatalnWrapper {A} (r : result A) :
  exits_with_1 (fatalnWrapper r).
Proof.
  destruct r; [apply exits_with_1_ret | apply exits_with_1_log_Fatalln].
Qed.

Lemma exits_with_1_get_state : exits_with_1 get_state.
Proof. by intros s s' code. Qed.

Lemma exits_with_1_fileExists filename : exits_with_1 (fileExists filename).
Proof. by intros s s' code. Qed.

Lemma exits_with_1_fetchFromFile file : exits_with_1 (fetchFromFile w file).
Proof. by intros s s' code. Qed.

Lemma exits_with_1_os_Create name : exits_with_1 (os_Create name).
Proof. intros s s' code. unfold os_Create. by case_bool_decide. Qed.

Lemma exits_with_1_os_MkdirAll name : exits_with_1 (os_MkdirAll name).
Proof. intros s s' code. unfold os_MkdirAll. by case_bool_decide. Qed.

Lemma exits_with_1_Encode file v :
  exits_with_1 (json_NewEncoder_Encode w file v).
Proof.
  intros s s' code. unfold json_NewEncoder_Encode.
  destruct (json_Encode w v); [|done]. by destruct file.
Qed.

Lemma exits_with_1_getThreadFromAPI url :
  exits_with_1 (getThreadFromAPI w url).
Proof.
  unfold getThreadFromAPI.
  apply exits_with_1_bind; intros; apply exits_with_1_fatalnWrapper.
Qed.

Lemma exits_with_1_fetchFromAPI sched threadID :
  exits_with_1 (fetchFromAPI w sched threadID).
Proof.
  unfold fetchFromAPI.
  apply exits_with_1_bind; [apply exits_with_1_getThreadFromAPI|].
  intros thread s s' code. apply recvLoop_exit. by rewrite length_map.
Qed.

Hint Resolve exits_with_1_ret exits_with_1_log_Println
  exits_with_1_log_Fatalln exits_with_1_fatalnWrapper exits_with_1_get_state
  exits_with_1_fileExists exits_with_1_fetchFromFile exits_with_1_os_Create
  exits_with_1_os_MkdirAll exits_with_1_Encode exits_with_1_fetchFromAPI
  : proc_exit.

Ltac exit_tac :=
  repeat first
    [ solve [eauto with proc_exit]
    | apply exits_with_1_bind; [|intros ?]
    | match goal with
      | |- exits_with_1 (if ?b then _ else _) => destruct b
      end ].

(** Whenever [getComments] ends the process, the exit status is 1: every
    failure on its paths is reported through [log.Fatalln], and
    [fetchFromAPI] waits for exactly as many comments as it has started
    workers, so that its loop is never left without a sender. *)
Theorem getComments_exit_status sched threadID s s' code :
  getComments w sched threadID s = (s', Exit code) → code = 1.
Proof.
  revert s s' code. change (exits_with_1 (getComments w sched threadID)).
  unfold getComments. exit_tac.
Qed.
End exit_status.

Lemma getComments_exit_status_witness :
  (getComments world_1002_down [] 9996333 empty_state).2 = Exit 1
  ∧ 1 = 1.
Proof.
  split; [vm_compute; reflexivity|].
  apply (getComments_exit_status world_1002_down [] 9996333 empty_state
           (getComments world_1002_down [] 9996333 empty_state).1 1).
  vm_compute. reflexivity.
Defined.

(** ** Which files a run can change *)

Create HintDb proc_files.

Section files_frame.
Context (w : World) (P : string → Prop).

Lemma keeps_files_ret {A} (a : A) : keeps_files_outside P (ret a).
Proof. by intros s s' r [= <- _]. Qed.

Lemma keeps_files_bind {A B} (m : Proc A) (k : A → Proc B) :
  keeps_files_outside P m → (∀ a, keeps_files_outside P (k a)) →
  keeps_files_outside P (m ≫= k).
Proof.
  intros Hm Hk s s' r. unfold mbind, Proc_bind, bind.
  destruct (m s) as [s1 [a|code]] eqn:Hms.
  - intros Hks name Hname.
    rewrite (Hk a _ _ _ Hks name Hname). by eapply Hm.
  - intros [= <- _]. by eapply Hm.
Qed.

Lemma keeps_files_log_Println msg : keeps_files_outside P (log_Println msg).
Proof. by intros s s' r [= <- _]. Qed.

Lemma keeps_files_log_Fatalln {A} msg :
  keeps_files_outside P (@log_Fatalln A msg).
Proof. by intros s s' r [= <- _]. Qed.

Lemma keeps_files_fatalnWrapper {A} (r : result A) :
  keeps_files_outside P (fatalnWrapper r).
Proof.
  destruct r; [apply keeps_files_ret | apply keeps_files_log_Fatalln].
Qed.

Lemma keeps_files_get_state : keeps_files_outside P get_state.
Proof. by intros s s' r [= <- _]. Qed.

Lemma keeps_files_fileExists filename :
  keeps_files_outside P (fileExists filename).
Proof. by intros s s' r [= <- _]. Qed.

Lemma keeps_files_fetchFromFile file :
  keeps_files_outside P (fetchFromFile w file).
Proof. by intros s s' r [= <- _]. Qed.

Lemma keeps_files_os_MkdirAll name : keeps_files_outside P (os_MkdirAll name).
Proof.
  intros s s' r. unfold os_MkdirAll. case_bool_decide; by intros [= <- _].
Qed.

Lemma keeps_files_os_Create name :
  P name → keeps_files_outside P (os_Create name).
Proof.
  intros HP s s' r. unfold os_Create.
  case_bool_decide; intros [= <- _] name' Hname'; [done|]. simpl.
  apply lookup_insert_ne. by intros ->.
Qed.

Lemma keeps_files_Encode_named name v :
  P name → keeps_files_outside P (json_NewEncoder_Encode w (os_Named name) v).
Proof.
  intros HP s s' r. unfold json_NewEncoder_Encode.
  destruct (json_Encode w v); intros [= <- _] name' Hname'; [|done]. simpl.
  apply lookup_insert_ne. by intros ->.
Qed.

Lemma keeps_files_Encode_stdout v :
  keeps_files_outside P (json_NewEncoder_Encode w os_Stdout v).
Proof.
  intros s s' r. unfold json_NewEncoder_Encode.
  destruct (json_Encode w v); by intros [= <- _].
Qed.

Lemma keeps_files_recvLoop n :
  ∀ sched senders acc, keeps_files_outside P (recvLoop n sched senders acc).
Proof.
  induction n as [|n IH]; intros sched senders acc; simpl.
  - apply keeps_files_ret.
  - destruct (pick _ senders) as [[[c|e] rest]|].
    + apply IH.
    + apply keeps_files_log_Fatalln.
    + by intros s s' r [= <- _].
Qed.

Lemma keeps_files_os_Create_then {B} name (k : os_File → Proc B) :
  P name →
  keeps_files_outside P (k (os_Named name)) →
  keeps_files_outside P (os_Create name ≫= λ r, fatalnWrapper r ≫= k).
Proof.
  intros HP Hk. pose proof (keeps_files_os_Create name HP) as Hcreate.
  intros s s' r. unfold mbind, Proc_bind, bind.
  destruct (os_Create name s) as [s1 [res|code]] eqn:Hrun.
  - assert (res = Ok (os_Named name) ∨ ∃ e, res = Err e) as [->|[e ->]].
    { unfold os_Create in Hrun. case_bool_decide; injection Hrun as _ <-;
        eauto. }
    + simpl. intros Hks name' Hname'.
      rewrite (Hk _ _ _ Hks name' Hname'). by eapply Hcreate.
    + simpl. intros [= <- _] name' Hname'. simpl. by eapply Hcreate.
  - intros [= <- _]. by eapply Hcreate.
Qed.

Lemma keeps_files_Ok_bind {A B} (a : A) (k : A → Proc B) :
  keeps_files_outside P (k a) →
  keeps_files_outside P (fatalnWrapper (Ok a) ≫= k).
Proof. intros Hk s s' r. apply Hk. Qed.

Hint Resolve keeps_files_ret keeps_files_log_Println keeps_files_log_Fatalln
  keeps_files_fatalnWrapper keeps_files_get_state keeps_files_fileExists
  keeps_files_fetchFromFile keeps_files_os_MkdirAll keeps_files_recvLoop
  keeps_files_Encode_named keeps_files_Encode_stdout keeps_files_os_Create
  : proc_files.

Ltac files_tac :=
  repeat first
    [ solve [eauto with proc_files]
    | apply keeps_files_os_Create_then; [solve [eauto]|]
    | apply keeps_files_bind; [|intros ?]
    | match goal with
      | |- keeps_files_outside _ (if ?b then _ else _) => destruct b
      end ].

Lemma keeps_files_fetchFromAPI sched threadID :
  keeps_files_outside P (fetchFromAPI w sched threadID).
Proof. unfold fetchFromAPI, getThreadFromAPI. files_tac. Qed.

Hint Resolve keeps_files_fetchFromAPI : proc_files.

(** [getComments] writes to the cache entry of its thread and to no other
    file. *)
Lemma keeps_files_getComments sched threadID :
  (∀ usr, user_Current w = Ok usr → P (cachedFileName usr threadID)) →
  keeps_files_outside P (getComments w sched threadID).
Proof.
  intros HP. unfold getComments.
  destruct (user_Current w) as [usr|e] eqn:Husr.
  - specialize (HP usr eq_refl).
    apply keeps_files_Ok_bind. files_tac.
  - by intros s s' r [= <- _].
Qed.

Lemma keeps_files_main_filter sched threadID outFileName keywordsStr :
  (∀ usr, user_Current w = Ok usr → P (cachedFileName usr threadID)) →
  P outFileName →
  keeps_files_outside P
    (main_filter w sched threadID outFileName keywordsStr).
Proof.
  intros Hcache Hout. unfold main_filter.
  apply keeps_files_bind; [by apply keeps_files_getComments|].
  intros comments. files_tac.
Qed.
End files_frame.

Section main_frame.
Context (w : World).

Lemma keeps_files_main_write (P : string → Prop) outFile filteredComments :
  (∀ name, outFile = os_Named name → P name) →
  keeps_files_outside P (main_write w outFile filteredComments).
Proof.
  intros HP. unfold main_write.
  destruct (0 <? length filteredComments)%nat;
    [|apply keeps_files_log_Println].
  apply keeps_files_bind; [|intros; apply keeps_files_fatalnWrapper].
  destruct outFile as [|name].
  - apply keeps_files_Encode_stdout.
  - apply keeps_files_Encode_named. by apply HP.
Qed.

Lemma keeps_stdout_main_filter sched threadID outFileName keywordsStr :
  keeps_stdout (main_filter w sched threadID outFileName keywordsStr).
Proof.
  unfold main_filter.
  apply keeps_stdout_bind; [apply keeps_stdout_getComments|].
  intros comments.
  apply keeps_stdout_bind; [|intros; apply keeps_stdout_ret].
  destruct (String.eqb outFileName "").
  - apply keeps_stdout_bind; [apply keeps_stdout_log_Println|].
    intros. apply keeps_stdout_ret.
  - apply keeps_stdout_bind; [apply keeps_stdout_os_Create|].
    intros. apply keeps_stdout_fatalnWrapper.
Qed.

Lemma keeps_stdout_main_write_named name filteredComments :
  keeps_stdout (main_write w (os_Named name) filteredComments).
Proof.
  unfold main_write.
  destruct (0 <? length filteredComments)%nat;
    [|apply keeps_stdout_log_Println].
  apply keeps_stdout_bind; [apply keeps_stdout_Encode_named|].
  intros. apply keeps_stdout_fatalnWrapper.
Qed.
End main_frame.

(** Whatever happens during a run, [main] changes no file other than the one
    named by [-outFile] and the cache entry of the thread: every other file
    holds at the end, normal or fatal, what it held at the start. *)
Theorem main_touches_only_its_files (w : World) (sched : list nat)
    (threadID : Z) (outFileName keywordsStr : string) (s s' : State)
    (r : outcome unit) (name : string) :
  main w sched threadID outFileName keywordsStr s = (s', r) →
  ¬ main_may_touch w threadID outFileName name →
  files s' !! name = files s !! name.
Proof.
  set (P := main_may_touch w threadID outFileName).
  assert (keeps_files_outside P
            (main_filter w sched threadID outFileName keywordsStr))
    as Hfilter.
  { apply keeps_files_main_filter; [|by left].
    intros usr Husr. right. eauto. }
  unfold main, mbind, Proc_bind, bind.
  destruct (main_filter w sched threadID outFileName keywordsStr s)
    as [s1 [[outFile filteredComments]|code]] eqn:Hrun.
  - intros Hwrite Hname. simpl in Hwrite.
    rewrite <- (Hfilter _ _ _ Hrun name Hname).
    eapply (keeps_files_main_write w P); [|done..].
    intros name' ->.
    destruct (main_filter_destination w _ _ _ _ _ _ _ _ Hrun)
      as (_ & Hstd & Hfile).
    destruct (decide (outFileName = "")) as [Hempty|Hnonempty].
    + by specialize (Hstd Hempty).
    + destruct (Hfile Hnonempty) as [[= ->] _]. by left.
  - intros [= <- _] Hname. by eapply Hfilter.
Qed.

Lemma main_touches_only_its_files_witness :
  files (main world_424242 [] 424242 "out.json" "xyz" state_with_notes).1
    !! "notes.txt"
  = files state_with_notes !! "notes.txt".
Proof.
  apply (main_touches_only_its_files world_424242 [] 424242 "out.json" "xyz"
           state_with_notes
           (main world_424242 [] 424242 "out.json" "xyz" state_with_notes).1
           (main world_424242 [] 424242 "out.json" "xyz" state_with_notes).2
           "notes.txt").
  - vm_compute. reflexivity.
  - intros [H|(usr & Husr & H)].
    + discriminate H.
    + injection Husr as <-. vm_compute in H. discriminate H.
Defined.

(** With [-outFile] given, nothing reaches standard output, whether the run
    ends normally or not. *)
Theorem main_outFile_keeps_stdout (w : World) (sched : list nat)
    (threadID : Z) (outFileName keywordsStr : string) (s s' : State)
    (r : outcome unit) :
  outFileName ≠ "" →
  main w sched threadID outFileName keywordsStr s = (s', r) →
  stdout s' = stdout s.
Proof.
  intros Hnonempty. unfold main, mbind, Proc_bind, bind.
  destruct (main_filter w sched threadID outFileName keywordsStr s)
    as [s1 [[outFile filteredComments]|code]] eqn:Hrun.
  - destruct (main_filter_destination w _ _ _ _ _ _ _ _ Hrun)
      as (<- & _ & Hfile).
    destruct (Hfile Hnonempty) as [-> _]. simpl.
    apply keeps_stdout_main_write_named.
  - intros [= <- _]. by eapply keeps_stdout_main_filter.
Qed.

Lemma main_outFile_keeps_stdout_witness :
  "out.json" ≠ ""
  ∧ stdout (main world_9996333 [] 9996333 "out.json" "you" empty_state).1
    = stdout empty_state.
Proof.
  split; [discriminate|].
  apply (main_outFile_keeps_stdout world_9996333 [] 9996333 "out.json" "you"
           empty_state
           (main world_9996333 [] 9996333 "out.json" "you" empty_state).1
           (main world_9996333 [] 9996333 "out.json" "you" empty_state).2).
  - discriminate.
  - vm_compute. reflexivity.
Defined.

(** ** A successful run *)

Section success.
Context (w : World).



Lemma Encode_named_ok name v bytes s :
  json_Encode w v = Ok bytes →
  json_NewEncoder_Encode w (os_Named name) v s
  = (mkState (<[name := default "" (files s !! name) +:+ bytes]> (files s))
       (dirs s) (stdout s) (logs s), Ret (Ok tt)).
Proof. intros Henc. unfold json_NewEncoder_Encode. by rewrite Henc. Qed.

Lemma Encode_stdout_ok v bytes s :
  json_Encode w v = Ok bytes →
  json_NewEncoder_Encode w os_Stdout v s
  = (mkState (files s) (dirs s) (stdout s +:+ bytes) (logs s), Ret (Ok tt)).
Proof. intros Henc. unfold json_NewEncoder_Encode. by rewrite Henc. Qed.
End success.



(** When the filtered list is not empty and can be encoded, [main] ends
    normally having written its encoding, and nothing else, to the
    destination: appended to standard output when no [-outFile] is given,
    as the whole contents of the named file otherwise. *)
Theorem main_writes_filtered (w : World) (sched : list nat) (threadID : Z)
    (outFileName keywordsStr : string) (s s1 : State) (outFile : os_File)
    (filteredComments : list hnComment) (encoded : string) :
  main_filter w sched threadID outFileName keywordsStr s
  = (s1, Ret (outFile, filteredComments)) →
  filteredComments ≠ [] →
  json_Encode w filteredComments = Ok encoded →
  ∃ s2,
    main w sched threadID outFileName keywordsStr s = (s2, Ret tt)
    ∧ logs s2 = logs s1
    ∧ (outFileName = "" →
       stdout s2 = stdout s +:+ encoded ∧ files s2 = files s1)
    ∧ (outFileName ≠ "" →
       stdout s2 = stdout s
       ∧ files s2 = <[outFileName := encoded]> (files s1)).
Proof.
  intros Hrun Hnonempty Henc.
  destruct (main_filter_destination w _ _ _ _ _ _ _ _ Hrun)
    as (Hstdout & Hstd & Hfile).
  unfold main, mbind, Proc_bind, bind. rewrite Hrun. simpl.
  unfold main_write.
  destruct filteredComments as [|c cs]; [done|]. cbn [length Nat.ltb Nat.leb].
  unfold mbind, Proc_bind, bind.
  destruct (decide (outFileName = "")) as [Hempty|Hnamed].
  - rewrite (Hstd Hempty), (Encode_stdout_ok w _ _ _ Henc). simpl.
    eexists. split; [done|]. simpl. split; [done|].
    split; [by rewrite Hstdout | done].
  - destruct (Hfile Hnamed) as [-> Hcreated].
    rewrite (Encode_named_ok w _ _ _ _ Henc). simpl.
    eexists. split; [done|]. simpl. split; [done|].
    split; [done|]. intros _. split; [done|]. by rewrite Hcreated.
Qed.

Lemma main_writes_filtered_witness :
  ∃ s2,
    main world_9996333 [] 9996333 "" "you" empty_state = (s2, Ret tt)
    ∧ logs s2
      = logs (main_filter world_9996333 [] 9996333 "" "you" empty_state).1
    ∧ ("" = "" →
       stdout s2 = stdout empty_state +:+ toy_encode [c1001]
       ∧ files s2
         = files (main_filter world_9996333 [] 9996333 "" "you"
                    empty_state).1)
    ∧ ("" ≠ "" →
       stdout s2 = stdout empty_state
       ∧ files s2
         = <["" := toy_encode [c1001]]>
             (files (main_filter world_9996333 [] 9996333 "" "you"
                       empty_state).1)).
Proof.
  apply (main_writes_filtered world_9996333 [] 9996333 "" "you" empty_state
           (main_filter world_9996333 [] 9996333 "" "you" empty_state).1
           os_Stdout [c1001] (toy_encode [c1001])).
  - vm_compute. reflexivity.
  - discriminate.
  - reflexivity.
Defined.

(** ** The previous revision's cache *)

Section v1.
Context (w : World).


(** [os.Open] and the decoder read the file and leave it as it is. *)
Lemma V1_fetchFromFile_file filename bytes s :
  files s !! filename = Some bytes →
  V1.fetchFromFile w filename s = (s, Ret (json_Decode w bytes)).
Proof.
  intros Hfile. unfold V1.fetchFromFile, mbind, Proc_bind, bind, os_Open.
  rewrite bool_decide_eq_true_2 by eauto. simpl.
  unfold mbind, Proc_bind, bind, get_state, file_read. by rewrite Hfile.
Qed.

Lemma V1_main_comments_hit sched threadID bytes s :
  files s !! V1.defaultFileName = Some bytes →
  V1.main_comments w sched threadID s
  = (r ← V1.fetchFromFile w V1.defaultFileName; fatalnWrapper r)
      (logged ("Reading cached comments from " +:+ V1.defaultFileName) s).
Proof.
  intros Hfile. unfold V1.main_comments, mbind at 1, Proc_bind, bind, get_state.
  rewrite os_Stat_file by eauto. done.
Qed.
End v1.

(** In the previous revision a cache hit is a read: when [comments.json]
    exists and decodes, [main] gets the decoded comments, whatever the
    thread identifier and whatever the network would have answered, and the
    only trace is a line on the log. *)
Theorem V1_cache_hit_reads (w : World) (sched : list nat) (threadID : Z)
    (s : State) (bytes : string) (comments : list hnComment) :
  files s !! V1.defaultFileName = Some bytes →
  json_Decode w bytes = Ok comments →
  V1.main_comments w sched threadID s
  = (logged ("Reading cached comments from " +:+ V1.defaultFileName) s,
     Ret comments).
Proof.
  intros Hfile Hdecode. rewrite (V1_main_comments_hit w _ _ bytes) by done.
  unfold mbind, Proc_bind, bind.
  rewrite (V1_fetchFromFile_file w _ bytes) by done. by rewrite Hdecode.
Qed.

Lemma V1_cache_hit_reads_witness :
  V1.main_comments (toy_world [] [] [] [[c1001; c1002_wire]]) [] 424242
    v1_cached_state
  = (logged "Reading cached comments from comments.json" v1_cached_state,
     Ret [c1001; c1002_wire]).
Proof.
  apply (V1_cache_hit_reads
           (toy_world [] [] [] [[c1001; c1002_wire]]) [] 424242
           v1_cached_state (toy_encode [c1001; c1002_wire])).
  - reflexivity.
  - reflexivity.
Defined.

(** In the previous revision the cache file is written only after the fetch:
    when a child fetch fails on a cold cache the process exits with status 1
    and no file has been created or changed. *)
Theorem V1_failed_fetch_writes_nothing (w : World) (sched : list nat)
    (threadID : Z) (s : State) (bytes : string) (thread : hnThread) :
  os_Stat s V1.defaultFileName = false →
  http_Get w (urlToFormat threadID) = Ok bytes →
  json_Unmarshal_hnThread w bytes = Ok thread →
  Exists (fun id => ∃ e, getComment w (urlToFormat id) = Err e) (Kids thread) →
  ∃ s',
    V1.main_comments w sched threadID s = (s', Exit 1)
    ∧ files s' = files s
    ∧ os_Stat s' V1.defaultFileName = false.
Proof.
  intros Hmiss Hget Hjson Hfail.
  unfold V1.main_comments, mbind at 1, Proc_bind, bind, get_state.
  rewrite Hmiss. unfold mbind at 1 2, Proc_bind, bind, log_Println.
  destruct (fetchFromAPI_child_failed w sched threadID bytes thread
              (logged
                 ("comments.json not found, attempting to fetch based on supplied threadID: "
                  +:+ strconv_Itoa threadID) s))
    as [e ->]; [done..|].
  eexists. split; [done|]. split; [done|]. exact Hmiss.
Qed.

Lemma V1_failed_fetch_writes_nothing_witness :
  ∃ s',
    V1.main_comments world_1002_down [] 9996333 empty_state = (s', Exit 1)
    ∧ files s' = files empty_state
    ∧ os_Stat s' V1.defaultFileName = false.
Proof.
  apply (V1_failed_fetch_writes_nothing world_1002_down [] 9996333
           empty_state "thread 9996333" (mkThread [1001; 1002])).
  - reflexivity.
  - reflexivity.
  - reflexivity.
  - right. left. exists "dial tcp: connection refused". reflexivity.
Defined.



(** ** Odds and ends *)

(** Filtering is idempotent: run over its own result with the same
    predicate, the filter loop of [main] keeps everything. *)
Theorem filterComments_idempotent (filter : filterFunction)
    (comments : list hnComment) :
  filterComments filter (filterComments filter comments)
  = filterComments filter comments.
Proof.
  rewrite !filterComments_filter.
  induction comments as [|c cs IH]; simpl; [done|].
  destruct (filter (Text c)) eqn:Hc; simpl; [|done]. by rewrite Hc, IH.
Qed.

(** ** The cache format read back *)

Section codec.
Implicit Types (s rest : string) (c : hnComment).

Lemma parse_string_body_escape_byte (b : ascii) rest :
  parse_string_body (escape_byte b rest)
  = cons_byte b (parse_string_body rest).
Proof. destruct b as [[] [] [] [] [] [] [] []]; reflexivity. Qed.

Lemma parse_string_body_escape s rest :
  parse_string_body (escape s (String dquote rest)) = Some (s, rest).
Proof.
  induction s as [|b s IH]; [done|]. cbn [escape].
  by rewrite parse_string_body_escape_byte, IH.
Qed.

Lemma parse_string_encode s rest :
  parse_string (encode_string s rest) = Some (s, rest).
Proof. apply parse_string_body_escape. Qed.

(** Numbers *)

Lemma span_number_uint (d : Decimal.uint) rest :
  span_number rest = (EmptyString, rest) →
  span_number (NilEmpty.string_of_uint d +:+ rest)
  = (NilEmpty.string_of_uint d, rest).
Proof.
  intros Hrest. induction d; simpl; [done | by rewrite IHd..].
Qed.

Lemma span_number_Itoa (n : Z) rest :
  span_number rest = (EmptyString, rest) →
  span_number (strconv_Itoa n +:+ rest) = (strconv_Itoa n, rest).
Proof.
  intros Hrest. unfold strconv_Itoa.
  destruct (Z.to_int n) as [d|d]; simpl.
  - by apply span_number_uint.
  - by rewrite span_number_uint.
Qed.

Lemma string_of_uint_head (d : Decimal.uint) :
  d ≠ Decimal.Nil →
  ∃ b s, NilEmpty.string_of_uint d = String b s ∧ is_digit b = true.
Proof. destruct d; [done | intros _; simpl; eauto..]. Qed.

Lemma to_int_nonnil (n : Z) :
  match Z.to_int n with
  | Decimal.Pos d | Decimal.Neg d => d ≠ Decimal.Nil
  end.
Proof.
  destruct n; simpl; [done | apply DecimalPos.Unsigned.to_uint_nonnil..].
Qed.

Lemma has_digit_Itoa (n : Z) : has_digit (strconv_Itoa n) = true.
Proof.
  unfold strconv_Itoa. pose proof (to_int_nonnil n) as Hn.
  destruct (Z.to_int n) as [d|d];
    destruct (string_of_uint_head d Hn) as (b & s & Heq & Hb); simpl;
    rewrite Heq; simpl; rewrite Hb; by rewrite ?orb_true_r.
Qed.

Lemma skip_space_Itoa (n : Z) rest :
  skip_space (strconv_Itoa n +:+ rest) = strconv_Itoa n +:+ rest.
Proof.
  unfold strconv_Itoa. pose proof (to_int_nonnil n) as Hn.
  destruct (Z.to_int n) as [d|d]; [|done].
  destruct (string_of_uint_head d Hn) as (b & s & Heq & Hb). simpl.
  rewrite Heq. simpl.
  assert (is_space b = false) as ->; [|done].
  by destruct b as [[] [] [] [] [] [] [] []].
Qed.

Lemma parse_number_encode (n : Z) rest :
  span_number rest = (EmptyString, rest) →
  parse_number (encode_number n rest) = Some (n, rest).
Proof.
  intros Hrest. unfold parse_number, encode_number.
  rewrite skip_space_Itoa, span_number_Itoa by done.
  rewrite has_digit_Itoa. unfold strconv_Itoa.
  by rewrite NilEmpty.isi, DecimalZ.of_to.
Qed.
End codec.

Section codec_objects.
Implicit Types (s rest : string) (c : hnComment).

(** One member followed by a comma: the loop goes on with the field set. *)
Lemma parse_members_comma fuel c c' key (value : string → string) rest :
  parse_field key c (value (String "," rest)) = Some (c', String "," rest) →
  parse_members (S fuel) c
    (encode_string key (String ":" (value (String "," rest))))
  = parse_members fuel c' rest.
Proof.
  intros Hfield. cbn [parse_members]. rewrite parse_string_encode.
  change (skip_space (String ":" ?x)) with (String ":" x).
  change (Ascii.eqb ":" ":") with true. cbv iota. rewrite Hfield.
  reflexivity.
Qed.

(** One member followed by the closing brace: the object is complete. *)
Lemma parse_members_brace fuel c c' key (value : string → string) rest :
  parse_field key c (value (String "}" rest)) = Some (c', String "}" rest) →
  parse_members (S fuel) c
    (encode_string key (String ":" (value (String "}" rest))))
  = Some (c', rest).
Proof.
  intros Hfield. cbn [parse_members]. rewrite parse_string_encode.
  change (skip_space (String ":" ?x)) with (String ":" x).
  change (Ascii.eqb ":" ":") with true. cbv iota. rewrite Hfield.
  reflexivity.
Qed.

Lemma parse_field_by c v rest :
  parse_field "by" c (encode_string v rest)
  = Some (mkComment v (ID c) (Parent c) (Text c), rest).
Proof. unfold parse_field. simpl String.eqb. by rewrite parse_string_encode. Qed.

Lemma parse_field_text c v rest :
  parse_field "text" c (encode_string v rest)
  = Some (mkComment (By c) (ID c) (Parent c) v, rest).
Proof. unfold parse_field. simpl String.eqb. by rewrite parse_string_encode. Qed.

Lemma parse_field_id c v rest :
  span_number rest = (EmptyString, rest) →
  parse_field "id" c (encode_number v rest)
  = Some (mkComment (By c) v (Parent c) (Text c), rest).
Proof.
  intros Hrest. unfold parse_field. simpl String.eqb.
  by rewrite parse_number_encode.
Qed.

Lemma parse_field_parent c v rest :
  span_number rest = (EmptyString, rest) →
  parse_field "parent" c (encode_number v rest)
  = Some (mkComment (By c) (ID c) v (Text c), rest).
Proof.
  intros Hrest. unfold parse_field. simpl String.eqb.
  by rewrite parse_number_encode.
Qed.

Lemma escape_byte_length (b : ascii) rest :
  (String.length rest < String.length (escape_byte b rest))%nat.
Proof. destruct b as [[] [] [] [] [] [] [] []]; simpl; lia. Qed.

Lemma escape_length s rest :
  (String.length rest ≤ String.length (escape s rest))%nat.
Proof.
  induction s as [|b s IH]; simpl; [done|].
  pose proof (escape_byte_length b (escape s rest)). lia.
Qed.

Lemma encode_string_length s rest :
  (String.length rest < String.length (encode_string s rest))%nat.
Proof.
  unfold encode_string. simpl.
  pose proof (escape_length s (String dquote rest)) as H. simpl in H. lia.
Qed.

Lemma encode_number_length (n : Z) rest :
  (String.length rest ≤ String.length (encode_number n rest))%nat.
Proof. unfold encode_number. rewrite append_length. lia. Qed.

Lemma encode_comment_length c rest :
  (String.length rest + 4 < String.length (encode_comment c rest))%nat.
Proof.
  unfold encode_comment.
  set (t1 := String "}" rest).
  set (t2 := encode_string (Text c) t1).
  set (t3 := encode_string "text" (String ":" t2)).
  set (t4 := encode_number (Parent c) (String "," t3)).
  set (t5 := encode_string "parent" (String ":" t4)).
  set (t6 := encode_number (ID c) (String "," t5)).
  set (t7 := encode_string "id" (String ":" t6)).
  set (t8 := encode_string (By c) (String "," t7)).
  set (t9 := encode_string "by" (String ":" t8)).
  assert (String.length t1 = S (String.length rest)) by done.
  assert (String.length t1 < String.length t2)%nat
    by apply encode_string_length.
  assert (S (String.length t2) < String.length t3)%nat
    by apply (encode_string_length "text" (String ":" t2)).
  assert (S (String.length t3) ≤ String.length t4)%nat
    by apply (encode_number_length (Parent c) (String "," t3)).
  assert (S (String.length t4) < String.length t5)%nat
    by apply (encode_string_length "parent" (String ":" t4)).
  assert (S (String.length t5) ≤ String.length t6)%nat
    by apply (encode_number_length (ID c) (String "," t5)).
  assert (S (String.length t6) < String.length t7)%nat
    by apply (encode_string_length "id" (String ":" t6)).
  assert (S (String.length t7) < String.length t8)%nat
    by apply (encode_string_length (By c) (String "," t7)).
  assert (S (String.length t8) < String.length t9)%nat
    by apply (encode_string_length "by" (String ":" t8)).
  cbn [String.length].
  clearbody t1 t2 t3 t4 t5 t6 t7 t8 t9. lia.
Qed.

Lemma parse_object_members (tail : string) :
  parse_object (String "{" (String dquote tail))
  = parse_members (S (String.length tail)) (mkComment "" 0 0 "")
      (String dquote tail).
Proof. reflexivity. Qed.

(** An object written by the encoder is read back as the comment it was
    written from, whatever follows it. *)
Lemma parse_object_encode c rest :
  parse_object (encode_comment c rest) = Some (c, rest).
Proof.
  unfold encode_comment.
  change (encode_string "by" ?x)
    with (String dquote (String "b" (String "y" (String dquote x)))).
  rewrite parse_object_members. cbn [String.length].
  change (String dquote (String "b" (String "y" (String dquote ?x))))
    with (encode_string "by" x).
  rewrite (parse_members_comma _ _ _ "by" (encode_string (By c)))
    by apply parse_field_by.
  rewrite (parse_members_comma _ _ _ "id" (encode_number (ID c)))
    by by apply parse_field_id.
  rewrite (parse_members_comma _ _ _ "parent" (encode_number (Parent c)))
    by by apply parse_field_parent.
  rewrite (parse_members_brace _ _ _ "text" (encode_string (Text c)))
    by apply parse_field_text.
  by destruct c.
Qed.

Lemma parse_elements_encode (cs : list hnComment) :
  ∀ c fuel rest,
    (length cs < fuel)%nat →
    parse_elements fuel (encode_elements c cs rest) = Some (c :: cs, rest).
Proof.
  induction cs as [|c' cs IH]; intros c [|fuel] rest Hfuel; try (simpl in *; lia).
  - cbn [parse_elements encode_elements]. rewrite parse_object_encode.
    reflexivity.
  - cbn [parse_elements encode_elements]. rewrite parse_object_encode.
    change (skip_space (String "," ?x)) with (String "," x).
    change (Ascii.eqb "," ",") with true. cbv iota.
    rewrite IH by (simpl in *; lia). reflexivity.
Qed.

Lemma encode_elements_length (cs : list hnComment) :
  ∀ c rest, (length cs < String.length (encode_elements c cs rest))%nat.
Proof.
  induction cs as [|c' cs IH]; intros c rest; cbn [encode_elements length].
  - pose proof (encode_comment_length c (String "]" rest)) as H.
    cbn [String.length] in H. lia.
  - pose proof (encode_comment_length c
                  (String "," (encode_elements c' cs rest))) as H.
    pose proof (IH c' rest). cbn [String.length] in H. lia.
Qed.

Lemma encode_elements_head c (cs : list hnComment) rest :
  ∃ tail, encode_elements c cs rest = String "{" tail.
Proof. destruct cs; simpl; unfold encode_comment; eauto. Qed.
End codec_objects.

(** C8 (cache round trip).  For every list of comments, writing it in the
    cache format and reading the result back gives the list itself: the
    same comments in the same order, each with the same [by], [id],
    [parent] and [text]. *)
Theorem decodeComments_encodeComments (comments : list hnComment) :
  decodeComments (encodeComments comments) = Ok comments.
Proof.
  destruct comments as [|c cs]; [reflexivity|].
  unfold decodeComments, encodeComments.
  change (skip_space (String "[" ?x)) with (String "[" x). cbv iota.
  unfold parse_array.
  change (skip_space (String "[" ?x)) with (String "[" x).
  change (Ascii.eqb "[" "[") with true. cbv iota.
  pose proof (encode_elements_length cs c (String "010" EmptyString)) as Hfuel.
  destruct (encode_elements_head c cs (String "010" EmptyString))
    as [tail Hhead].
  rewrite Hhead at 1.
  change (skip_space (String "{" ?x)) with (String "{" x).
  change (Ascii.eqb "{" "]") with false. cbv iota.
  by rewrite parse_elements_encode.
Qed.

(** The decoder on what the latest revision leaves it to read on a cache
    hit: the first run writes the encoding of the comments, the second
    truncates it and finds an empty stream. *)
Example cache_codec_second_run :
  files (getComments (with_cache_codec world_9996333) [] 9996333
           empty_state).1
    !! cachedFileName "/home/hn" 9996333
  = Some (encodeComments [c1001; c1002_wire])
  ∧ decodeComments "" = Err "EOF"
  ∧ (getComments (with_cache_codec world_9996333) [] 9996333
       (getComments (with_cache_codec world_9996333) [] 9996333
          empty_state).1).2
    = Exit 1.
Proof. vm_compute. done. Qed.
